(** * AppForge workflow state engine: a shallow embedding

    The engine of [appforge_mcp_server.py] keeps its state in an SQLite
    database and exposes one method per operation.  Tables are modelled as
    lists of rows in rowid order together with the AUTOINCREMENT counter,
    each method as a computation in a small transaction monad that threads
    the connection's view of the database, the wall clock and Python
    exceptions, and the [get_connection] context manager as the combinator
    that commits on normal exit and rolls back on an exception. *)

From Stdlib Require Import ZArith List String Ascii Bool Lia.
From Stdlib Require Import DecimalString Permutation Sorted.
From Stdlib Require Import RelationClasses.
Import ListNotations.

Local Open Scope string_scope.
Local Open Scope list_scope.
Local Open Scope Z_scope.

(** ** Python built-ins used by the engine

    A Python [str] is modelled by its UTF-8 bytes.  The functions below
    treat the ASCII range as Python does; text that is not ASCII is carried
    along unchanged and never counts as white space or as a digit. *)

Module Py.

(** [str(n)] for an [int]. *)
Definition str_of_int (n : Z) : string :=
  NilZero.string_of_int (Z.to_int n).

(** [sep.join(parts)]. *)
Fixpoint join (sep : string) (parts : list string) : string :=
  match parts with
  | [] => ""
  | [p] => p
  | p :: rest => String.append p (String.append sep (join sep rest))
  end.

(** [needle in s] on strings: substring test. *)
Fixpoint contains (needle s : string) : bool :=
  String.prefix needle s ||
  match s with
  | EmptyString => false
  | String _ s' => contains needle s'
  end.

(** [str.isspace] on one ASCII character: tab, line feed, vertical tab,
    form feed, carriage return, the four separators 0x1c-0x1f and space. *)
Definition is_space (c : ascii) : bool :=
  let n := N_of_ascii c in
  ((9 <=? n) && (n <=? 13) || (28 <=? n) && (n <=? 32))%N.

(** [s.split()] with no argument: the maximal runs of characters that are
    not white space, in order.  [tok] is the run being read. *)
Fixpoint split_from (tok : string) (s : string) : list string :=
  match s with
  | EmptyString => if (String.length tok =? 0)%nat then [] else [tok]
  | String c s' =>
      if is_space c then
        if (String.length tok =? 0)%nat then split_from "" s'
        else tok :: split_from "" s'
      else split_from (String.append tok (String c "")) s'
  end.

Definition split (s : string) : list string := split_from "" s.

Fixpoint lstrip (s : string) : string :=
  match s with
  | String c s' => if is_space c then lstrip s' else s
  | EmptyString => EmptyString
  end.

Definition rev_string (s : string) : string :=
  string_of_list_ascii (rev (list_ascii_of_string s)).

(** [s.strip()]. *)
Definition strip (s : string) : string :=
  rev_string (lstrip (rev_string (lstrip s))).

Definition digit_of (c : ascii) : option Z :=
  let n := N_of_ascii c in
  if ((48 <=? n) && (n <=? 57))%N then Some (Z.of_N n - 48) else None.

(** The digit part of a base-10 literal: digits, with single underscores
    allowed between two digits.  [after_digit] tells whether the previous
    character was a digit. *)
Fixpoint digits_from (acc : Z) (after_digit : bool) (s : string) : option Z :=
  match s with
  | EmptyString => if after_digit then Some acc else None
  | String c s' =>
      if Ascii.eqb c "_" then
        if after_digit then digits_from acc false s' else None
      else
        match digit_of c with
        | Some d => digits_from (10 * acc + d) true s'
        | None => None
        end
  end.

(** [int(s)] for a string: [None] stands for the [ValueError] Python raises
    on a malformed literal. *)
Definition int_of_str (s : string) : option Z :=
  match strip s with
  | String c s' =>
      if Ascii.eqb c "-" then option_map Z.opp (digits_from 0 false s')
      else if Ascii.eqb c "+" then digits_from 0 false s'
      else digits_from 0 false (String c s')
  | EmptyString => None
  end.

(** Truth value of an [int] ([if n:]). *)
Definition truthy_int (n : Z) : bool := negb (n =? 0).

(** Text given by its UTF-8 bytes, for the pictographs of the messages. *)
Definition utf8 (bytes : list nat) : string :=
  string_of_list_ascii (map ascii_of_nat bytes).

End Py.

(** ** JSON values

    Structured payloads ([artifacts], audit details) are stored as the text
    [json.dumps] produces; the model keeps the value that text denotes. *)

#[local] Set Warnings "-register-all".

Inductive json : Type :=
| JNull
| JBool (b : bool)
| JInt (n : Z)
| JStr (s : string)
| JArr (items : list json)
| JObj (fields : list (string * json)).

Definition json_opt_str (o : option string) : json :=
  match o with
  | Some s => JStr s
  | None => JNull
  end.

(** ** The SQLite store

    A table is the list of its rows in rowid order plus the value SQLite
    keeps in [sqlite_sequence] for an AUTOINCREMENT key.  Foreign keys are
    declared by the schema but not enforced (the connection never turns the
    pragma on), so they do not appear below. *)

Definition timestamp := Z.

Inductive constraint : Type :=
| NotNull (table column : string)
| Unique (table : string) (columns : list string)
| CheckFailed (table column : string).

(** The exceptions the engine can meet. *)
Inductive exn : Type :=
| IntegrityError (violated : constraint)
| ValueError (literal : string)
| OverflowError.

Module Sql.

Record table (R : Type) : Type := Table { rows : list R; seq : Z }.
Arguments Table {R} _ _.
Arguments rows {R} _.
Arguments seq {R} _.

Class Row (R : Type) : Type := { rowid : R -> Z }.

Section Tables.
Context {R : Type} `{Row R}.

Definition empty : table R := Table [] 0.

Definition max_rowid (l : list R) : Z :=
  fold_right (fun r m => Z.max (rowid r) m) 0 l.

(** INTEGER PRIMARY KEY AUTOINCREMENT: one more than the largest rowid the
    table holds or has ever handed out. *)
Definition next_rowid (t : table R) : Z :=
  Z.max (seq t) (max_rowid (rows t)) + 1.

(** INSERT: the new row goes last; [mk] receives its rowid. *)
Definition insert (mk : Z -> R) (t : table R) : table R :=
  let i := next_rowid t in Table (rows t ++ [mk i]) i.

(** UPDATE ... SET ... WHERE. *)
Definition update (cond : R -> bool) (assign : R -> R) (t : table R)
    : table R :=
  Table (map (fun r => if cond r then assign r else r) (rows t)) (seq t).

(** SELECT ... WHERE, rows in rowid order. *)
Definition select (cond : R -> bool) (t : table R) : list R :=
  filter cond (rows t).

(** [cursor.fetchone()]: the first row of the result, or [None]. *)
Definition fetchone (result : list R) : option R := hd_error result.

(** ORDER BY: a stable insertion sort for the order [le]. *)
Fixpoint insert_sorted (le : R -> R -> bool) (x : R) (l : list R) : list R :=
  match l with
  | [] => [x]
  | y :: l' => if le x y then x :: y :: l' else y :: insert_sorted le x l'
  end.

Definition order_by (le : R -> R -> bool) (l : list R) : list R :=
  fold_right (insert_sorted le) [] l.

End Tables.

(** The range of an SQLite INTEGER; a Python [int] outside of it cannot be
    bound to a statement parameter. *)
Definition fits_integer (n : Z) : bool :=
  (- 2 ^ 63 <=? n) && (n <? 2 ^ 63).

End Sql.

Import Sql.

(** *** Column domains (the CHECK constraints of the schema) *)

Inductive project_status : Type := Active | Paused | Completed | ProjectFailed.
Inductive phase_status : Type :=
  PhasePending | PhaseInProgress | PhaseComplete | PhaseBlocked.
Inductive agent_status : Type :=
  AgentPending | AgentInProgress | AgentComplete | AgentFailed.
Inductive priority : Type := HIGH | MEDIUM | LOW.
Inductive feature_status : Type :=
  FeaturePending | FeatureInProgress | FeatureComplete | FeatureFailed
| FeatureSkipped.
Inductive gate_type : Type := MustApprove | OptionalReview | AutoProceed.
Inductive gate_status : Type := GatePending | Approved | Rejected.

Definition agent_status_eqb (a b : agent_status) : bool :=
  match a, b with
  | AgentPending, AgentPending | AgentInProgress, AgentInProgress
  | AgentComplete, AgentComplete | AgentFailed, AgentFailed => true
  | _, _ => false
  end.

Definition feature_status_eqb (a b : feature_status) : bool :=
  match a, b with
  | FeaturePending, FeaturePending | FeatureInProgress, FeatureInProgress
  | FeatureComplete, FeatureComplete | FeatureFailed, FeatureFailed
  | FeatureSkipped, FeatureSkipped => true
  | _, _ => false
  end.

Definition gate_status_eqb (a b : gate_status) : bool :=
  match a, b with
  | GatePending, GatePending | Approved, Approved | Rejected, Rejected => true
  | _, _ => false
  end.

(** The text of a column value, where the engine receives it as a string
    and the CHECK constraint decides. *)
Definition priority_of_string (s : string) : option priority :=
  if String.eqb s "HIGH" then Some HIGH
  else if String.eqb s "MEDIUM" then Some MEDIUM
  else if String.eqb s "LOW" then Some LOW
  else None.

Definition gate_type_of_string (s : string) : option gate_type :=
  if String.eqb s "must_approve" then Some MustApprove
  else if String.eqb s "optional_review" then Some OptionalReview
  else if String.eqb s "auto_proceed" then Some AutoProceed
  else None.

(** *** Rows, one record per table of [init_schema] *)

Module Project.
Record t : Type := Make {
  id : Z;
  name : string;
  description : string;
  tech_stack : string;
  current_phase : Z;
  status : project_status;
  created_at : timestamp;
  updated_at : timestamp }.

Definition set_current_phase (n : Z) (r : t) : t :=
  Make (id r) (name r) (description r) (tech_stack r) n (status r)
       (created_at r) (updated_at r).

Definition set_updated_at (ts : timestamp) (r : t) : t :=
  Make (id r) (name r) (description r) (tech_stack r) (current_phase r)
       (status r) (created_at r) ts.
End Project.

Module Phase.
Record t : Type := Make {
  id : Z;
  project_id : Z;
  phase_number : Z;
  phase_name : string;
  status : phase_status;
  started_at : option timestamp;
  completed_at : option timestamp }.

(** SET status = 'in_progress', started_at = ? *)
Definition start (ts : timestamp) (r : t) : t :=
  Make (id r) (project_id r) (phase_number r) (phase_name r)
       PhaseInProgress (Some ts) (completed_at r).
End Phase.

Module Agent.
Record t : Type := Make {
  id : Z;
  project_id : Z;
  agent_name : string;
  phase_number : Z;
  status : agent_status;
  output_artifacts : option json;
  error_message : option string;
  started_at : option timestamp;
  completed_at : option timestamp }.

(** SET status = 'complete', output_artifacts = ?, completed_at = ? *)
Definition complete (artifacts : json) (ts : timestamp) (r : t) : t :=
  Make (id r) (project_id r) (agent_name r) (phase_number r)
       AgentComplete (Some artifacts) (error_message r) (started_at r)
       (Some ts).
End Agent.

Module Feature.
Record t : Type := Make {
  id : Z;
  project_id : Z;
  feature_name : string;
  description : string;
  priority : priority;
  status : feature_status;
  retry_count : Z;
  max_retries : Z;
  assigned_iteration : option Z;
  created_at : timestamp;
  started_at : option timestamp;
  completed_at : option timestamp }.

(** SET status = 'complete', completed_at = ? *)
Definition complete (ts : timestamp) (r : t) : t :=
  Make (id r) (project_id r) (feature_name r) (description r) (priority r)
       FeatureComplete (retry_count r) (max_retries r)
       (assigned_iteration r) (created_at r) (started_at r) (Some ts).

(** SET retry_count = retry_count + 1 *)
Definition retry (r : t) : t :=
  Make (id r) (project_id r) (feature_name r) (description r) (priority r)
       (status r) (retry_count r + 1) (max_retries r)
       (assigned_iteration r) (created_at r) (started_at r)
       (completed_at r).
End Feature.

Module Gate.
Record t : Type := Make {
  id : Z;
  project_id : Z;
  gate_name : string;
  kind : gate_type;
  status : gate_status;
  artifacts : list string;
  user_feedback : option string;
  requested_at : timestamp;
  resolved_at : option timestamp }.

(** SET status = ?, user_feedback = ?, resolved_at = ? *)
Definition resolve (st : gate_status) (feedback : option string)
    (ts : timestamp) (r : t) : t :=
  Make (id r) (project_id r) (gate_name r) (kind r) st (artifacts r)
       feedback (requested_at r) (Some ts).
End Gate.

Module Artifact.
Record t : Type := Make {
  id : Z;
  project_id : Z;
  agent_name : string;
  artifact_type : string;
  artifact_name : string;
  file_path : option string;
  content : option string;
  metadata : option json;
  created_at : timestamp }.
End Artifact.

Module Audit.
Record t : Type := Make {
  id : Z;
  project_id : Z;
  event_type : string;
  agent_name : option string;
  phase_number : option Z;
  details : json;
  logged_at : timestamp }.
End Audit.

Module Dep.
Record t : Type := Make {
  id : Z;
  agent_name : string;
  depends_on : list string;
  phase_number : Z }.
End Dep.

#[export] Instance project_row : Row Project.t := {| rowid := Project.id |}.
#[export] Instance phase_row : Row Phase.t := {| rowid := Phase.id |}.
#[export] Instance agent_row : Row Agent.t := {| rowid := Agent.id |}.
#[export] Instance feature_row : Row Feature.t := {| rowid := Feature.id |}.
#[export] Instance gate_row : Row Gate.t := {| rowid := Gate.id |}.
#[export] Instance artifact_row : Row Artifact.t := {| rowid := Artifact.id |}.
#[export] Instance audit_row : Row Audit.t := {| rowid := Audit.id |}.
#[export] Instance dep_row : Row Dep.t := {| rowid := Dep.id |}.

(** *** The database *)

Record db : Type := Db {
  projects : table Project.t;
  phases : table Phase.t;
  agents : table Agent.t;
  features : table Feature.t;
  approval_gates : table Gate.t;
  artifacts : table Artifact.t;
  audit_log : table Audit.t;
  dependencies : table Dep.t }.

Definition on_projects (f : table Project.t -> table Project.t) (d : db) : db :=
  Db (f (projects d)) (phases d) (agents d) (features d) (approval_gates d)
     (artifacts d) (audit_log d) (dependencies d).

Definition on_phases (f : table Phase.t -> table Phase.t) (d : db) : db :=
  Db (projects d) (f (phases d)) (agents d) (features d) (approval_gates d)
     (artifacts d) (audit_log d) (dependencies d).

Definition on_agents (f : table Agent.t -> table Agent.t) (d : db) : db :=
  Db (projects d) (phases d) (f (agents d)) (features d) (approval_gates d)
     (artifacts d) (audit_log d) (dependencies d).

Definition on_features (f : table Feature.t -> table Feature.t) (d : db) : db :=
  Db (projects d) (phases d) (agents d) (f (features d)) (approval_gates d)
     (artifacts d) (audit_log d) (dependencies d).

Definition on_gates (f : table Gate.t -> table Gate.t) (d : db) : db :=
  Db (projects d) (phases d) (agents d) (features d) (f (approval_gates d))
     (artifacts d) (audit_log d) (dependencies d).

Definition on_audit_log (f : table Audit.t -> table Audit.t) (d : db) : db :=
  Db (projects d) (phases d) (agents d) (features d) (approval_gates d)
     (artifacts d) (f (audit_log d)) (dependencies d).

Definition on_dependencies (f : table Dep.t -> table Dep.t) (d : db) : db :=
  Db (projects d) (phases d) (agents d) (features d) (approval_gates d)
     (artifacts d) (audit_log d) (f (dependencies d)).

Definition empty_db : db :=
  Db empty empty empty empty empty empty empty empty.

(** ** Connections and transactions

    The process owns one database file and reads the wall clock.  [clock]
    gives the value of each successive reading ([datetime.now()] in Python,
    CURRENT_TIMESTAMP in SQLite) and [tick] counts the readings made so
    far. *)

Record world : Type := World {
  store : db;
  clock : nat -> timestamp;
  tick : nat }.

(** An open connection: its view of the database (the committed state plus
    the writes it has staged) and the process around it. *)
Record conn : Type := Conn { view : db; host : world }.

(** What a method body does between opening the connection and leaving the
    [with] block: it returns a value or raises. *)
Definition Tx (A : Type) : Type := conn -> (exn + A) * conn.

Definition ret {A : Type} (a : A) : Tx A := fun c => (inr a, c).

Definition bind {A B : Type} (m : Tx A) (k : A -> Tx B) : Tx B :=
  fun c =>
    match m c with
    | (inr a, c') => k a c'
    | (inl e, c') => (inl e, c')
    end.

Definition raise {A : Type} (e : exn) : Tx A := fun c => (inl e, c).

(** [try: body except IntegrityError: handler]. *)
Definition except_integrity {A : Type} (body : Tx A) (handler : Tx A) : Tx A :=
  fun c =>
    match body c with
    | (inl (IntegrityError _), c') => handler c'
    | other => other
    end.

Declare Scope tx_scope.
Delimit Scope tx_scope with tx.
Notation "x <- m ;; k" := (bind m (fun x => k))
  (at level 100, m at next level, right associativity) : tx_scope.
Notation "m ;; k" := (bind m (fun _ => k))
  (at level 100, right associativity) : tx_scope.
Local Open Scope tx_scope.

(** A query evaluated on the connection's view. *)
Definition query {A : Type} (q : db -> A) : Tx A :=
  fun c => (inr (q (view c)), c).

(** A statement that writes. *)
Definition execute (stmt : db -> db) : Tx unit :=
  fun c => (inr tt, Conn (stmt (view c)) (host c)).

(** One reading of the clock. *)
Definition datetime_now : Tx timestamp :=
  fun c =>
    let w := host c in
    (inr (clock w (tick w)),
     Conn (view c) (World (store w) (clock w) (S (tick w)))).

(** Binding a Python [int] to a statement parameter. *)
Definition bind_integer (n : Z) : Tx unit :=
  if fits_integer n then ret tt else raise OverflowError.

(** A call to another engine method, which opens a connection of its own
    on the committed state. *)
Definition call {A : Type} (method : world -> (exn + A) * world) : Tx A :=
  fun c => let (r, w) := method (host c) in (r, Conn (view c) w).

(** [with self.db.get_connection() as conn: body].  Leaving the block
    normally, a [return] included, commits the staged writes; an exception
    rolls them back and is raised again.  The only method called from
    inside a block, [can_start_agent], writes nothing. *)
Definition get_connection {A : Type} (body : Tx A)
    : world -> (exn + A) * world :=
  fun w =>
    match body (Conn (store w) w) with
    | (inr a, c) => (inr a, World (view c) (clock (host c)) (tick (host c)))
    | (inl e, c) => (inl e, host c)
    end.

(** A [for] loop whose body updates the accumulator [acc]. *)
Fixpoint for_each {A S : Type} (items : list A) (body : A -> S -> Tx S)
    (acc : S) : Tx S :=
  match items with
  | [] => ret acc
  | x :: rest => acc' <- body x acc ;; for_each rest body acc'
  end.

(** ** AppForgeDB *)

(** The rows [_initialize_dependency_graph] inserts, in order. *)
Definition dependency_seed : list (string * list string * Z) :=
  [ ("input-agent", [], 0);
    ("requirements-analyst", ["input-agent"], 1);
    ("ui-ux-designer", ["input-agent"], 1);
    ("database-architect", ["requirements-analyst"; "ui-ux-designer"], 2);
    ("api-designer", ["requirements-analyst"; "ui-ux-designer"], 2);
    ("integration-specialist", ["requirements-analyst"; "ui-ux-designer"], 2);
    ("backend-developer",
     ["database-architect"; "api-designer"; "integration-specialist"], 3);
    ("frontend-developer", ["backend-developer"; "ui-ux-designer"], 3);
    ("backend-developer-feature", ["backend-developer"], 4);
    ("frontend-developer-feature", ["backend-developer-feature"], 4);
    ("qa-engineer-feature",
     ["backend-developer-feature"; "frontend-developer-feature"], 4);
    ("qa-engineer", ["qa-engineer-feature"], 5);
    ("security-auditor", ["qa-engineer-feature"], 5);
    ("devops-engineer", ["qa-engineer-feature"], 5);
    ("devops-engineer-staging",
     ["qa-engineer"; "security-auditor"; "devops-engineer"], 6);
    ("devops-engineer-production", ["devops-engineer-staging"], 6);
    ("devops-engineer-appstore", ["devops-engineer-production"], 6) ].

Definition _initialize_dependency_graph (d : db) : db :=
  fold_left
    (fun d' '(agent_name, depends_on, phase_number) =>
       on_dependencies
         (insert (fun i => Dep.Make i agent_name depends_on phase_number)) d')
    dependency_seed d.

(** [init_schema]: the tables exist afterwards (CREATE TABLE IF NOT EXISTS
    keeps what is there) and the dependency graph is seeded if empty. *)
Definition init_schema (d : db) : db :=
  if (Z.of_nat (List.length (rows (dependencies d))) =? 0)
  then _initialize_dependency_graph d
  else d.

(** [log_event]: one row appended to the audit log, stamped by SQLite. *)
Definition log_event (project_id : Z) (event_type : string) (details : json)
    (agent_name : option string) (phase_number : option Z) : Tx unit :=
  ts <- datetime_now ;;
  execute (on_audit_log
    (insert (fun i =>
       Audit.Make i project_id event_type agent_name phase_number details ts))).

(** INSERT INTO agents, a column that the statement does not list being
    [None].  [project_id], [agent_name] and [phase_number] are NOT NULL and
    have no default; [status] defaults to 'pending'. *)
Definition insert_agent (project_id : option Z) (agent_name : option string)
    (phase_number : option Z) (status : option agent_status)
    (output_artifacts : option json) (error_message : option string)
    (completed_at : option timestamp) : Tx unit :=
  match project_id, agent_name, phase_number with
  | None, _, _ => raise (IntegrityError (NotNull "agents" "project_id"))
  | Some _, None, _ => raise (IntegrityError (NotNull "agents" "agent_name"))
  | Some _, Some _, None =>
      raise (IntegrityError (NotNull "agents" "phase_number"))
  | Some p, Some a, Some n =>
      execute (on_agents
        (insert (fun i =>
           Agent.Make i p a n
             (match status with Some s => s | None => AgentPending end)
             output_artifacts error_message None completed_at)))
  end.

(** ** Results

    Every method returns a dictionary with a [success] flag; [reply] has
    one constructor per shape of dictionary. *)

Record can_start_info : Type := CanStartInfo {
  can_start : bool;
  checked_agent : string;
  required_phase : Z;
  current_phase : Z;
  agent_dependencies : list string;
  missing_dependencies : list string;
  can_start_message : string }.

Record ready_agent : Type := Ready { ready_name : string; ready_phase : Z }.

Record blocked_agent : Type := Blocked {
  blocked_name : string;
  blocked_phase : Z;
  blocked_missing : list string }.

Record retry_info : Type := RetryInfo {
  retry_count : Z;
  retries_left : Z;
  max_retries_reached : bool;
  retry_message : string }.

Inductive reply : Type :=
| Failure (error : string)
| ProjectCreated (project_id : Z) (name message : string)
| CanStart (info : can_start_info)
| AgentCompleted (message : string) (phase : Z)
| AgentMarkedFailed (message : string)
| NextAgents (ready_agents : list ready_agent)
             (blocked_agents : list blocked_agent)
| ApprovalRequested (gate_id : Z) (gate_name gate_kind message : string)
| ApprovalRecorded (approved : bool) (message : string)
| FeaturesAdded (added : Z) (message : string)
| NoNextFeature (message : string)
| NextFeature (feature : Feature.t)
| FeatureCompleted (message : string)
| FeatureRetried (info : retry_info).

(** The [success] entry of the dictionary. *)
Definition success (r : reply) : bool :=
  match r with
  | Failure _ => false
  | _ => true
  end.


Definition method (A : Type) : Type := world -> (exn + A) * world.

(** The pictographs that open the messages, as the source file has them. *)
Definition mark_ok : string := Py.utf8 [195; 162; 197; 147; 226; 128; 166]%nat.
Definition mark_no : string := Py.utf8 [195; 162; 197; 146]%nat.
Definition mark_stop : string :=
  Py.utf8 [195; 176; 197; 184; 226; 128; 186; 226; 128; 152]%nat.
Definition mark_done : string :=
  Py.utf8 [195; 176; 197; 184; 197; 189; 226; 128; 176]%nat.
Definition mark_warn : string :=
  Py.utf8 [195; 162; 197; 161; 194; 160; 195; 175; 194; 184]%nat.

(** An f-string: the concatenation of its pieces. *)
Definition fstr (pieces : list string) : string := String.concat "" pieces.

(** ** AppForgeStateManager *)

Definition PHASE_NAMES : list (Z * string) :=
  [ (0, "Input Gathering"); (1, "Discovery"); (2, "Technical Design");
    (3, "Foundation"); (4, "Feature Development"); (5, "Hardening");
    (6, "Deployment") ].

(** One INSERT INTO phases, under UNIQUE(project_id, phase_number). *)
Definition insert_phase (project_id phase_num : Z) (phase_name : string)
    : Tx unit :=
  clash <- query (fun d =>
    existsb (fun r => (Phase.project_id r =? project_id)
                      && (Phase.phase_number r =? phase_num))
            (rows (phases d))) ;;
  if clash
  then raise (IntegrityError
                (Unique "phases" ["project_id"; "phase_number"]))
  else execute (on_phases
         (insert (fun i =>
            Phase.Make i project_id phase_num phase_name PhasePending
                       None None))).

Definition create_project (name description tech_stack : string)
    : method reply :=
  get_connection (
    except_integrity (
      created_at <- datetime_now ;;
      updated_at <- datetime_now ;;
      taken <- query (fun d =>
        existsb (fun r => String.eqb (Project.name r) name)
                (rows (projects d))) ;;
      (if taken then raise (IntegrityError (Unique "projects" ["name"]))
       else execute (on_projects
              (insert (fun i =>
                 Project.Make i name description tech_stack 0 Active
                              created_at updated_at)))) ;;
      project_id <- query (fun d => seq (projects d)) ;;
      for_each PHASE_NAMES
        (fun '(phase_num, phase_name) _ =>
           insert_phase project_id phase_num phase_name) tt ;;
      started <- datetime_now ;;
      execute (on_phases
        (update (fun r => (Phase.project_id r =? project_id)
                          && (Phase.phase_number r =? 0))
                (Phase.start started))) ;;
      log_event project_id "project_created"
        (JObj [("name", JStr name); ("description", JStr description);
               ("tech_stack", JStr tech_stack)]) None None ;;
      ret (ProjectCreated project_id name
             (fstr ["Project '"; name;
                    "' created successfully. ";
                    "Starting Phase 0: Input Gathering"])))
      (ret (Failure (fstr ["Project '"; name; "' already exists"])))).

Definition can_start_agent (project_id : Z) (agent_name : string)
    : method reply :=
  get_connection (
    dep_row <- query (fun d =>
      fetchone (select (fun r => String.eqb (Dep.agent_name r) agent_name)
                       (dependencies d))) ;;
    match dep_row with
    | None => ret (Failure (fstr ["Unknown agent: "; agent_name]))
    | Some dep_row =>
        let deps := Dep.depends_on dep_row in
        let required := Dep.phase_number dep_row in
        completed <- query (fun d =>
          select (fun r => (Agent.project_id r =? project_id)
                           && agent_status_eqb (Agent.status r) AgentComplete)
                 (agents d)) ;;
        let completed_names := map Agent.agent_name completed in
        let missing :=
          filter (fun dep => negb (existsb (String.eqb dep) completed_names))
                 deps in
        let deps_met := (List.length missing =? 0)%nat in
        project <- query (fun d =>
          fetchone (select (fun r => Project.id r =? project_id)
                           (projects d))) ;;
        let current :=
          match project with
          | Some p => Project.current_phase p
          | None => 0
          end in
        let too_early := deps_met && (current <? required) in
        let ok := if too_early then false else deps_met in
        let missing :=
          if too_early
          then missing ++
               [fstr ["Project is in Phase "; Py.str_of_int current;
                      ", but agent requires Phase "; Py.str_of_int required]]
          else missing in
        ret (CanStart
               (CanStartInfo ok agent_name required current deps missing
                  (if ok then fstr [mark_ok; " Ready to start"]
                   else fstr [mark_no; " Missing: "; Py.join ", " missing])))
    end).

Definition mark_agent_complete (project_id : Z) (agent_name : string)
    (artifacts : json) : method reply :=
  get_connection (
    dep_row <- query (fun d =>
      fetchone (select (fun r => String.eqb (Dep.agent_name r) agent_name)
                       (dependencies d))) ;;
    match dep_row with
    | None => ret (Failure (fstr ["Unknown agent: "; agent_name]))
    | Some dep_row =>
        let phase_number := Dep.phase_number dep_row in
        existing <- query (fun d =>
          fetchone
            (select (fun r => (Agent.project_id r =? project_id)
                              && String.eqb (Agent.agent_name r) agent_name
                              && negb (agent_status_eqb (Agent.status r)
                                                        AgentComplete))
                    (agents d))) ;;
        match existing with
        | Some found =>
            ts <- datetime_now ;;
            execute (on_agents
              (update (fun r => Agent.id r =? Agent.id found)
                      (Agent.complete artifacts ts)))
        | None =>
            ts <- datetime_now ;;
            insert_agent (Some project_id) (Some agent_name)
              (Some phase_number) (Some AgentComplete) (Some artifacts)
              None (Some ts)
        end ;;
        touched <- datetime_now ;;
        execute (on_projects
          (update (fun r => Project.id r =? project_id)
                  (Project.set_updated_at touched))) ;;
        log_event project_id "agent_complete"
          (JObj [("agent_name", JStr agent_name);
                 ("phase_number", JInt phase_number);
                 ("artifacts", artifacts)])
          (Some agent_name) (Some phase_number) ;;
        ret (AgentCompleted
               (fstr [mark_ok; " "; agent_name; " marked complete"])
               phase_number)
    end).

Definition mark_agent_failed (project_id : Z) (agent_name error : string)
    : method reply :=
  get_connection (
    ts <- datetime_now ;;
    insert_agent (Some project_id) (Some agent_name) None (Some AgentFailed)
      None (Some error) (Some ts) ;;
    log_event project_id "agent_failed"
      (JObj [("agent_name", JStr agent_name); ("error", JStr error)])
      (Some agent_name) None ;;
    ret (AgentMarkedFailed (fstr ["Agent "; agent_name; " marked as failed"]))).

(** ORDER BY phase_number, agent_name (names compared byte by byte). *)
Definition by_phase_then_name (a b : Dep.t) : bool :=
  (Dep.phase_number a <? Dep.phase_number b)
  || ((Dep.phase_number a =? Dep.phase_number b)
      && String.leb (Dep.agent_name a) (Dep.agent_name b)).

(** The body of the loop of [get_next_agents]: one agent of the graph is
    checked and filed under [ready], under [blocked], or under neither. *)
Definition visit_agent (project_id : Z) (row : Dep.t)
    (lists : list ready_agent * list blocked_agent)
    : Tx (list ready_agent * list blocked_agent) :=
  let '(ready, blocked) := lists in
  let agent_name := Dep.agent_name row in
  check <- call (can_start_agent project_id agent_name) ;;
  match check with
  | CanStart info =>
      if can_start info then
        completed <- query (fun d =>
          fetchone
            (select (fun r => (Agent.project_id r =? project_id)
                              && String.eqb (Agent.agent_name r) agent_name
                              && agent_status_eqb (Agent.status r)
                                                  AgentComplete)
                    (agents d))) ;;
        match completed with
        | None =>
            ret (ready ++ [Ready agent_name (required_phase info)], blocked)
        | Some _ => ret (ready, blocked)
        end
      else if negb (List.length (missing_dependencies info) =? 0)%nat
      then ret (ready,
                blocked ++ [Blocked agent_name (required_phase info)
                              (missing_dependencies info)])
      else ret (ready, blocked)
  | _ => ret (ready, blocked)
  end.

Definition get_next_agents (project_id : Z) : method reply :=
  get_connection (
    all_agents <- query (fun d =>
      order_by by_phase_then_name (rows (dependencies d))) ;;
    lists <- for_each all_agents (visit_agent project_id) ([], []) ;;
    ret (NextAgents (fst lists) (firstn 5 (snd lists)))).

Definition request_approval (project_id : Z) (gate_name gate_kind : string)
    (artifacts : list string) : method reply :=
  get_connection (
    requested <- datetime_now ;;
    match gate_type_of_string gate_kind with
    | None =>
        raise (IntegrityError (CheckFailed "approval_gates" "gate_type"))
    | Some kind =>
        execute (on_gates
          (insert (fun i =>
             Gate.Make i project_id gate_name kind GatePending artifacts
                       None requested None)))
    end ;;
    gate_id <- query (fun d => seq (approval_gates d)) ;;
    log_event project_id "approval_requested"
      (JObj [("gate_name", JStr gate_name); ("gate_type", JStr gate_kind);
             ("artifacts", JArr (map JStr artifacts))]) None None ;;
    ret (ApprovalRequested gate_id gate_name gate_kind
           (fstr [mark_stop; " Approval requested: "; gate_name]))).

(** [int(gate_name.split()[1]) if len(gate_name.split()) > 1 else None]. *)
Definition gate_number_of (gate_name : string) : Tx (option Z) :=
  match Py.split gate_name with
  | _ :: token :: _ =>
      match Py.int_of_str token with
      | Some n => ret (Some n)
      | None => raise (ValueError token)
      end
  | _ => ret None
  end.

Definition record_approval (project_id : Z) (gate_name : string)
    (approved : bool) (feedback : option string) : method reply :=
  get_connection (
    let status := if approved then Approved else Rejected in
    resolved <- datetime_now ;;
    execute (on_gates
      (update (fun r => (Gate.project_id r =? project_id)
                        && String.eqb (Gate.gate_name r) gate_name
                        && gate_status_eqb (Gate.status r) GatePending)
              (Gate.resolve status feedback resolved))) ;;
    (if approved && Py.contains "Gate" gate_name then
       gate_number <- gate_number_of gate_name ;;
       match gate_number with
       | Some next_phase =>
           if Py.truthy_int next_phase then
             touched <- datetime_now ;;
             bind_integer next_phase ;;
             execute (on_projects
               (update (fun r => Project.id r =? project_id)
                       (fun r =>
                          Project.set_updated_at touched
                            (Project.set_current_phase next_phase r)))) ;;
             started <- datetime_now ;;
             execute (on_phases
               (update (fun r => (Phase.project_id r =? project_id)
                                 && (Phase.phase_number r =? next_phase))
                       (Phase.start started)))
           else ret tt
       | None => ret tt
       end
     else ret tt) ;;
    log_event project_id "approval_recorded"
      (JObj [("gate_name", JStr gate_name); ("approved", JBool approved);
             ("feedback", json_opt_str feedback)]) None None ;;
    ret (ApprovalRecorded approved
           (if approved then fstr [mark_ok; " Approved: "; gate_name]
            else fstr [mark_no; " Rejected: "; gate_name]))).

(** One entry of the [features] argument of [add_features]: [name] is
    required, the other two keys may be absent. *)
Record feature_input : Type := FeatureInput {
  input_name : string;
  input_description : option string;
  input_priority : option string }.

Definition json_of_feature_input (f : feature_input) : json :=
  JObj ([("name", JStr (input_name f))]
        ++ match input_description f with
           | Some s => [("description", JStr s)]
           | None => []
           end
        ++ match input_priority f with
           | Some s => [("priority", JStr s)]
           | None => []
           end).

Definition get_or {A : Type} (o : option A) (default : A) : A :=
  match o with
  | Some a => a
  | None => default
  end.

Definition add_features (project_id : Z) (features_in : list feature_input)
    : method reply :=
  get_connection (
    for_each features_in
      (fun feature _ =>
         created <- datetime_now ;;
         match priority_of_string
                 (get_or (input_priority feature) "MEDIUM") with
         | None => raise (IntegrityError (CheckFailed "features" "priority"))
         | Some prio =>
             execute (on_features
               (insert (fun i =>
                  Feature.Make i project_id (input_name feature)
                    (get_or (input_description feature) "") prio
                    FeaturePending 0 3 None created None None)))
         end) tt ;;
    let count := Z.of_nat (List.length features_in) in
    log_event project_id "features_added"
      (JObj [("count", JInt count);
             ("features", JArr (map json_of_feature_input features_in))])
      None None ;;
    ret (FeaturesAdded count
           (fstr [mark_ok; " Added "; Py.str_of_int count;
                  " features to backlog"]))).

(** CASE priority WHEN 'HIGH' THEN 1 WHEN 'MEDIUM' THEN 2 WHEN 'LOW' THEN 3 *)
Definition priority_rank (p : priority) : Z :=
  match p with
  | HIGH => 1
  | MEDIUM => 2
  | LOW => 3
  end.

(** ORDER BY CASE priority ... END, id ASC *)
Definition by_rank_then_id (a b : Feature.t) : bool :=
  (priority_rank (Feature.priority a) <? priority_rank (Feature.priority b))
  || ((priority_rank (Feature.priority a) =? priority_rank (Feature.priority b))
      && (Feature.id a <=? Feature.id b)).

Definition get_next_feature (project_id : Z) : method reply :=
  get_connection (
    feature <- query (fun d =>
      fetchone
        (firstn 1
           (order_by by_rank_then_id
              (select (fun r => (Feature.project_id r =? project_id)
                                && feature_status_eqb (Feature.status r)
                                                      FeaturePending)
                      (features d))))) ;;
    match feature with
    | None => ret (NoNextFeature (fstr [mark_done; " All features complete!"]))
    | Some f => ret (NextFeature f)
    end).

Definition mark_feature_complete (project_id feature_id : Z) : method reply :=
  get_connection (
    completed <- datetime_now ;;
    execute (on_features
      (update (fun r => Feature.id r =? feature_id)
              (Feature.complete completed))) ;;
    feature <- query (fun d =>
      fetchone (select (fun r => Feature.id r =? feature_id) (features d))) ;;
    log_event project_id "feature_complete"
      (JObj [("feature_id", JInt feature_id);
             ("feature_name",
              JStr (match feature with
                    | Some f => Feature.feature_name f
                    | None => "Unknown"
                    end))]) None None ;;
    ret (FeatureCompleted
           (fstr [mark_ok; " Feature complete: ";
                  match feature with
                  | Some f => Feature.feature_name f
                  | None => Py.str_of_int feature_id
                  end]))).

Definition record_feature_retry (project_id feature_id : Z) : method reply :=
  get_connection (
    execute (on_features
      (update (fun r => Feature.id r =? feature_id) Feature.retry)) ;;
    feature <- query (fun d =>
      fetchone (select (fun r => Feature.id r =? feature_id) (features d))) ;;
    match feature with
    | Some f =>
        let left := Feature.max_retries f - Feature.retry_count f in
        log_event project_id "feature_retry"
          (JObj [("feature_id", JInt feature_id);
                 ("feature_name", JStr (Feature.feature_name f));
                 ("retry_count", JInt (Feature.retry_count f));
                 ("retries_left", JInt left)]) None None ;;
        ret (FeatureRetried
               (RetryInfo (Feature.retry_count f) left (left <=? 0)
                  (fstr [mark_warn; " Retry ";
                         Py.str_of_int (Feature.retry_count f); "/";
                         Py.str_of_int (Feature.max_retries f); " for ";
                         Feature.feature_name f])))
    | None => ret (Failure "Feature not found")
    end).

(** ** The tool boundary

    A request is a tool name with its arguments, already checked against
    the tool's input schema.  The tools that only read and the artifact
    tools are not part of this development. *)

Inductive tool_call : Type :=
| appforge_create_project (name description : string)
                          (tech_stack : option string)
| appforge_can_start_agent (project_id : Z) (agent_name : string)
| appforge_mark_agent_complete (project_id : Z) (agent_name : string)
                               (artifacts : json)
| appforge_mark_agent_failed (project_id : Z) (agent_name error : string)
| appforge_get_next_agents (project_id : Z)
| appforge_add_features (project_id : Z) (features_in : list feature_input)
| appforge_get_next_feature (project_id : Z)
| appforge_mark_feature_complete (project_id feature_id : Z)
| appforge_record_feature_retry (project_id feature_id : Z)
| appforge_request_approval (project_id : Z) (gate_name gate_kind : string)
                            (artifacts : list string)
| appforge_record_approval (project_id : Z) (gate_name : string)
                           (approved : bool) (feedback : option string).

Definition tool_name (c : tool_call) : string :=
  match c with
  | appforge_create_project _ _ _ => "appforge_create_project"
  | appforge_can_start_agent _ _ => "appforge_can_start_agent"
  | appforge_mark_agent_complete _ _ _ => "appforge_mark_agent_complete"
  | appforge_mark_agent_failed _ _ _ => "appforge_mark_agent_failed"
  | appforge_get_next_agents _ => "appforge_get_next_agents"
  | appforge_add_features _ _ => "appforge_add_features"
  | appforge_get_next_feature _ => "appforge_get_next_feature"
  | appforge_mark_feature_complete _ _ => "appforge_mark_feature_complete"
  | appforge_record_feature_retry _ _ => "appforge_record_feature_retry"
  | appforge_request_approval _ _ _ _ => "appforge_request_approval"
  | appforge_record_approval _ _ _ _ => "appforge_record_approval"
  end.

(** What [call_tool] sends back: the method's dictionary, or, when the
    method raised [e], [{"success": False, "error": str(e), "tool": name}]. *)
Inductive response : Type :=
| Returned (result : reply)
| Raised (error : exn) (tool : string).

Definition response_success (r : response) : bool :=
  match r with
  | Returned result => success result
  | Raised _ _ => false
  end.

Definition route (c : tool_call) : method reply :=
  match c with
  | appforge_create_project name description tech_stack =>
      create_project name description (get_or tech_stack "default")
  | appforge_can_start_agent p a => can_start_agent p a
  | appforge_mark_agent_complete p a artifacts =>
      mark_agent_complete p a artifacts
  | appforge_mark_agent_failed p a error => mark_agent_failed p a error
  | appforge_get_next_agents p => get_next_agents p
  | appforge_add_features p fs => add_features p fs
  | appforge_get_next_feature p => get_next_feature p
  | appforge_mark_feature_complete p f => mark_feature_complete p f
  | appforge_record_feature_retry p f => record_feature_retry p f
  | appforge_request_approval p g k arts => request_approval p g k arts
  | appforge_record_approval p g approved feedback =>
      record_approval p g approved feedback
  end.

Definition call_tool (c : tool_call) (w : world) : response * world :=
  match route c w with
  | (inr result, w') => (Returned result, w')
  | (inl e, w') => (Raised e (tool_name c), w')
  end.

(** ** Vocabulary of the properties *)

(** Lookups by key, as [fetchone] on a keyed SELECT performs them. *)
Definition find_dependency (d : db) (agent_name : string) : option Dep.t :=
  find (fun r => String.eqb (Dep.agent_name r) agent_name)
       (rows (dependencies d)).

Definition find_project (d : db) (project_id : Z) : option Project.t :=
  find (fun r => Project.id r =? project_id) (rows (projects d)).

Definition find_phase (d : db) (project_id phase_number : Z)
    : option Phase.t :=
  find (fun r => (Phase.project_id r =? project_id)
                 && (Phase.phase_number r =? phase_number))
       (rows (phases d)).

(** The agent has a run record with status complete in the project. *)
Definition has_complete_record (d : db) (project_id : Z) (agent_name : string)
    : Prop :=
  exists r, In r (rows (agents d))
            /\ Agent.project_id r = project_id
            /\ Agent.agent_name r = agent_name
            /\ Agent.status r = AgentComplete.

Definition holds_complete (d : db) (project_id : Z) (agent_name : string)
    : bool :=
  existsb (fun r => (Agent.project_id r =? project_id)
                    && String.eqb (Agent.agent_name r) agent_name
                    && agent_status_eqb (Agent.status r) AgentComplete)
          (rows (agents d)).

(** The run records of a (project, agent) pair, by status. *)
Definition complete_runs (d : db) (project_id : Z) (agent_name : string)
    : list Agent.t :=
  filter (fun r => (Agent.project_id r =? project_id)
                   && String.eqb (Agent.agent_name r) agent_name
                   && agent_status_eqb (Agent.status r) AgentComplete)
         (rows (agents d)).

Definition open_runs (d : db) (project_id : Z) (agent_name : string)
    : list Agent.t :=
  filter (fun r => (Agent.project_id r =? project_id)
                   && String.eqb (Agent.agent_name r) agent_name
                   && negb (agent_status_eqb (Agent.status r) AgentComplete))
         (rows (agents d)).

Definition failed_runs (d : db) (project_id : Z) (agent_name : string)
    : list Agent.t :=
  filter (fun r => (Agent.project_id r =? project_id)
                   && String.eqb (Agent.agent_name r) agent_name
                   && agent_status_eqb (Agent.status r) AgentFailed)
         (rows (agents d)).

(** The primary key of the agents table identifies its rows. *)
Definition agents_keyed (d : db) : Prop :=
  NoDup (map Agent.id (rows (agents d))).

(** A computation that changes the agents table neither in the
    connection's view nor in the committed state. *)
Definition frames_agents {A : Type} (m : Tx A) : Prop :=
  forall c,
    agents (view (snd (m c))) = agents (view c)
    /\ agents (store (host (snd (m c)))) = agents (store (host c)).

Definition pending_gate (d : db) (project_id : Z) (gate_name : string)
    (r : Gate.t) : Prop :=
  In r (rows (approval_gates d))
  /\ Gate.project_id r = project_id
  /\ Gate.gate_name r = gate_name
  /\ Gate.status r = GatePending.

Definition pending_feature (d : db) (project_id : Z) (f : Feature.t) : Prop :=
  In f (rows (features d))
  /\ Feature.project_id f = project_id
  /\ Feature.status f = FeaturePending.

(** The readiness check as [get_next_agents] sees it. *)
Definition check_info (w : world) (project_id : Z) (agent_name : string)
    : option can_start_info :=
  match fst (can_start_agent project_id agent_name w) with
  | inr (CanStart info) => Some info
  | _ => None
  end.

Definition passes_check (w : world) (project_id : Z) (agent_name : string)
    : bool :=
  match check_info w project_id agent_name with
  | Some info => can_start info
  | None => false
  end.

(** The order in which [get_next_agents] visits the dependency graph. *)
Definition iteration_order (d : db) : list Dep.t :=
  order_by by_phase_then_name (rows (dependencies d)).

(** What the visit of one agent contributes to each list. *)
Definition ready_of (w : world) (project_id : Z) (row : Dep.t)
    : list ready_agent :=
  match check_info w project_id (Dep.agent_name row) with
  | Some info =>
      if can_start info
         && negb (holds_complete (store w) project_id (Dep.agent_name row))
      then [Ready (Dep.agent_name row) (required_phase info)]
      else []
  | None => []
  end.

Definition blocked_of (w : world) (project_id : Z) (row : Dep.t)
    : list blocked_agent :=
  match check_info w project_id (Dep.agent_name row) with
  | Some info =>
      if negb (can_start info)
         && negb (List.length (missing_dependencies info) =? 0)%nat
      then [Blocked (Dep.agent_name row) (required_phase info)
                    (missing_dependencies info)]
      else []
  | None => []
  end.

(** The text of the entry that reports a phase mismatch. *)
Definition phase_mismatch (current required : Z) : string :=
  fstr ["Project is in Phase "; Py.str_of_int current;
        ", but agent requires Phase "; Py.str_of_int required].

(** *** Sample states *)

Definition sample_clock (n : nat) : timestamp := 1700000000 + Z.of_nat n.

(** A new database file, as [AppForgeDB()] leaves it. *)
Definition fresh_world : world := World (init_schema empty_db) sample_clock 0.

(** The state after a sequence of tool calls. *)
Definition after (calls : list tool_call) (w : world) : world :=
  fold_left (fun w' c => snd (call_tool c w')) calls w.

(** One project, "P", with id 1 and in phase 0. *)
Definition project_world : world :=
  after [appforge_create_project "P" "demo" None] fresh_world.

(** Project "P" with a pending gate of the given name. *)
Definition gate_world (gate_name : string) : world :=
  after [appforge_request_approval 1 gate_name "must_approve" ["spec.md"]]
        project_world.

(** Projects "P" (id 1) and "Q" (id 2); the backlog holds one feature,
    "login", with id 1, owned by "Q". *)
Definition two_projects_world : world :=
  after [appforge_create_project "Q" "other" None;
         appforge_add_features 2 [FeatureInput "login" None (Some "HIGH")]]
        project_world.

(** Project "P" whose gate "Gate 2" was requested and then rejected. *)
Definition resolved_gate_world : world :=
  after [appforge_record_approval 1 "Gate 2" false (Some "not yet")]
        (gate_world "Gate 2").

(** Project "P", still in phase 0, where "requirements-analyst" was marked
    complete although its prerequisite "input-agent" never ran. *)
Definition early_complete_world : world :=
  after [appforge_mark_agent_complete 1 "requirements-analyst" (JObj [])]
        project_world.

(** ** The other methods of AppForgeStateManager

    [get_project_state], [list_projects] and the three artifact methods.
    [get_project_progress] computes with floating-point numbers and is left
    out.  Where a query orders rows by a key that several rows may share,
    SQLite does not fix their relative order; [order_by] keeps them in
    rowid order, and no property below depends on that choice. *)

Definition on_artifacts (f : table Artifact.t -> table Artifact.t) (d : db)
    : db :=
  Db (projects d) (phases d) (agents d) (features d) (approval_gates d)
     (f (artifacts d)) (audit_log d) (dependencies d).

(** Truth value of a JSON value, as Python's [if x:] takes it. *)
Definition json_truthy (j : json) : bool :=
  match j with
  | JNull => false
  | JBool b => b
  | JInt n => negb (n =? 0)
  | JStr s => negb (String.eqb s "")
  | JArr items => negb (Nat.eqb (List.length items) 0)
  | JObj fields => negb (Nat.eqb (List.length fields) 0)
  end.

Inductive artifact_reply : Type :=
| ArtifactSaved (message : string)
| ArtifactFound (artifact : Artifact.t)
| ArtifactMissing (error : string)
| ArtifactList (found : list Artifact.t) (count : Z).

Definition artifact_success (r : artifact_reply) : bool :=
  match r with
  | ArtifactMissing _ => false
  | _ => true
  end.

Definition save_artifact (project_id : Z)
    (agent_name artifact_type artifact_name : string)
    (file_path content : option string) (metadata : option json)
    : method artifact_reply :=
  get_connection (
    created <- datetime_now ;;
    execute (on_artifacts
      (insert (fun i =>
         Artifact.Make i project_id agent_name artifact_type artifact_name
           file_path content
           (match metadata with
            | Some m => if json_truthy m then Some m else None
            | None => None
            end)
           created))) ;;
    ret (ArtifactSaved (fstr [mark_ok; " Artifact saved: "; artifact_name]))).

(** ORDER BY created_at DESC *)
Definition newest_first (a b : Artifact.t) : bool :=
  Artifact.created_at b <=? Artifact.created_at a.

Definition get_artifact (project_id : Z) (artifact_name : string)
    : method artifact_reply :=
  get_connection (
    artifact <- query (fun d =>
      fetchone
        (firstn 1
           (order_by newest_first
              (select (fun r => (Artifact.project_id r =? project_id)
                                && String.eqb (Artifact.artifact_name r)
                                              artifact_name)
                      (artifacts d))))) ;;
    match artifact with
    | None => ret (ArtifactMissing "Artifact not found")
    | Some a => ret (ArtifactFound a)
    end).

Definition list_artifacts (project_id : Z) (filter_type : option string)
    : method artifact_reply :=
  get_connection (
    found <-
      (if match filter_type with
          | Some t => negb (String.eqb t "")
          | None => false
          end
       then query (fun d =>
              order_by newest_first
                (select (fun r => (Artifact.project_id r =? project_id)
                                  && String.eqb (Artifact.artifact_type r)
                                                (get_or filter_type ""))
                        (artifacts d)))
       else query (fun d =>
              order_by newest_first
                (select (fun r => Artifact.project_id r =? project_id)
                        (artifacts d)))) ;;
    ret (ArtifactList found (Z.of_nat (List.length found)))).

(** The columns [list_projects] selects. *)
Record project_listing : Type := ProjectListing {
  listed_id : Z;
  listed_name : string;
  listed_description : string;
  listed_current_phase : Z;
  listed_status : project_status;
  listed_created_at : timestamp;
  listed_updated_at : timestamp }.

Definition listing_of (r : Project.t) : project_listing :=
  ProjectListing (Project.id r) (Project.name r) (Project.description r)
    (Project.current_phase r) (Project.status r) (Project.created_at r)
    (Project.updated_at r).

(** ORDER BY updated_at DESC *)
Definition latest_update_first (a b : Project.t) : bool :=
  Project.updated_at b <=? Project.updated_at a.

Definition list_projects : method (list project_listing * Z) :=
  get_connection (
    found <- query (fun d =>
      map listing_of (order_by latest_update_first (rows (projects d)))) ;;
    ret (found, Z.of_nat (List.length found))).

(** The text SQLite stores for a priority, and compares in
    [ORDER BY priority]. *)
Definition priority_text (p : priority) : string :=
  match p with
  | HIGH => "HIGH"
  | MEDIUM => "MEDIUM"
  | LOW => "LOW"
  end.

(** ORDER BY phase_number *)
Definition by_phase_number (a b : Phase.t) : bool :=
  Phase.phase_number a <=? Phase.phase_number b.

(** ORDER BY completed_at DESC; NULL sorts below every timestamp. *)
Definition latest_completion_first (a b : Agent.t) : bool :=
  match Agent.completed_at a, Agent.completed_at b with
  | _, None => true
  | None, Some _ => false
  | Some x, Some y => y <=? x
  end.

(** ORDER BY requested_at DESC *)
Definition latest_request_first (a b : Gate.t) : bool :=
  Gate.requested_at b <=? Gate.requested_at a.

(** ORDER BY priority DESC, id ASC, the priority compared as text. *)
Definition by_priority_text_desc (a b : Feature.t) : bool :=
  String.ltb (priority_text (Feature.priority b))
             (priority_text (Feature.priority a))
  || (String.eqb (priority_text (Feature.priority a))
                 (priority_text (Feature.priority b))
      && (Feature.id a <=? Feature.id b)).

(** ORDER BY timestamp DESC *)
Definition latest_event_first (a b : Audit.t) : bool :=
  Audit.logged_at b <=? Audit.logged_at a.

Record project_state : Type := ProjectState {
  state_project : Project.t;
  state_phases : list Phase.t;
  state_agents : list Agent.t;
  state_pending_approvals : list Gate.t;
  state_features : list Feature.t;
  state_recent_activity : list Audit.t }.

Inductive state_reply : Type :=
| StateMissing (error : string)
| StateFound (state : project_state).

Definition get_project_state (project_id : Z) : method state_reply :=
  get_connection (
    project <- query (fun d =>
      fetchone (select (fun r => Project.id r =? project_id)
                       (projects d))) ;;
    match project with
    | None => ret (StateMissing "Project not found")
    | Some project =>
        phase_rows <- query (fun d =>
          order_by by_phase_number
            (select (fun r => Phase.project_id r =? project_id)
                    (phases d))) ;;
        agent_rows <- query (fun d =>
          order_by latest_completion_first
            (select (fun r => Agent.project_id r =? project_id)
                    (agents d))) ;;
        approvals <- query (fun d =>
          order_by latest_request_first
            (select (fun r => (Gate.project_id r =? project_id)
                              && gate_status_eqb (Gate.status r) GatePending)
                    (approval_gates d))) ;;
        feature_rows <- query (fun d =>
          order_by by_priority_text_desc
            (select (fun r => Feature.project_id r =? project_id)
                    (features d))) ;;
        audit_rows <- query (fun d =>
          firstn 20
            (order_by latest_event_first
               (select (fun r => Audit.project_id r =? project_id)
                       (audit_log d)))) ;;
        ret (StateFound
               (ProjectState project phase_rows agent_rows approvals
                             feature_rows audit_rows))
    end).

(** ** Vocabulary of the further properties *)

Definition find_feature (d : db) (feature_id : Z) : option Feature.t :=
  find (fun r => Feature.id r =? feature_id) (rows (features d)).

(** A relation between the database before and after that a method body
    keeps: every statement it runs on the connection relates the view to
    the new view, and the committed state is not touched. *)
Definition keeps {A : Type} (R : db -> db -> Prop) (m : Tx A) : Prop :=
  forall c,
    R (view c) (view (snd (m c)))
    /\ store (host (snd (m c))) = store (host c).

(** *** The tools of [call_tool] together

    [tool_call] lists the tools that drive the workflow; [request] adds
    the reports and the artifact tools.  appforge_get_project_progress is
    left out with its method.  Identifiers that a request carries are
    taken within the range of an SQLite INTEGER, as the ids the engine
    hands out are; [bind_integer] guards the one number the engine
    computes from text. *)
Inductive request : Type :=
| workflow_tool (c : tool_call)
| appforge_get_project_state (project_id : Z)
| appforge_list_projects
| appforge_save_artifact (project_id : Z)
                         (agent_name artifact_type artifact_name : string)
                         (file_path content : option string)
                         (metadata : option json)
| appforge_get_artifact (project_id : Z) (artifact_name : string)
| appforge_list_artifacts (project_id : Z) (filter_type : option string).

Inductive result : Type :=
| WorkflowResult (r : reply)
| StateResult (r : state_reply)
| ProjectsResult (listed : list project_listing) (count : Z)
| ArtifactResult (r : artifact_reply).

Definition answer {A : Type} (wrap : A -> result) (m : method A)
    : method result :=
  fun w =>
    match m w with
    | (inr a, w') => (inr (wrap a), w')
    | (inl e, w') => (inl e, w')
    end.

(** The method a request is routed to; [inl e] is the exception that the
    [except] clause of [call_tool] turns into an error response. *)
Definition handle (r : request) : method result :=
  match r with
  | workflow_tool c => answer WorkflowResult (route c)
  | appforge_get_project_state p => answer StateResult (get_project_state p)
  | appforge_list_projects =>
      answer (fun '(listed, count) => ProjectsResult listed count)
             list_projects
  | appforge_save_artifact p agent kind name file_path content metadata =>
      answer ArtifactResult
             (save_artifact p agent kind name file_path content metadata)
  | appforge_get_artifact p name => answer ArtifactResult (get_artifact p name)
  | appforge_list_artifacts p filter_type =>
      answer ArtifactResult (list_artifacts p filter_type)
  end.

(** The state that results from one request, and from several. *)
Definition serve (r : request) (w : world) : world := snd (handle r w).

Definition serve_all (rs : list request) (w : world) : world :=
  fold_left (fun w' r => serve r w') rs w.

(** The method returned a dictionary rather than raise. *)
Definition returns {A : Type} (outcome : exn + A) : bool :=
  match outcome with
  | inr _ => true
  | inl _ => false
  end.

(** No constraint on the new state. *)
Definition any_change (d d' : db) : Prop := True.

(** The dependency graph is the same. *)
Definition same_graph (d d' : db) : Prop := dependencies d' = dependencies d.

(** The audit log has kept its entries and may have gained some. *)
Definition log_extended (d d' : db) : Prop :=
  exists added, rows (audit_log d') = rows (audit_log d) ++ added.

(** Every project found before is found after, in the same phase. *)
Definition phases_kept (d d' : db) : Prop :=
  forall p proj,
    find_project d p = Some proj ->
    exists proj', find_project d' p = Some proj'
                  /\ Project.current_phase proj' = Project.current_phase proj.

(** Every feature found before is found after, with a retry counter that
    is not smaller and the same bound. *)
Definition retries_kept (d d' : db) : Prop :=
  forall f r,
    find_feature d f = Some r ->
    exists r', find_feature d' f = Some r'
               /\ Feature.retry_count r <= Feature.retry_count r'
               /\ Feature.max_retries r' = Feature.max_retries r
               /\ Feature.project_id r' = Feature.project_id r.

(** The backlog row that [add_features] makes of one input. *)
Definition added_as (project_id : Z) (input : feature_input)
    (row : Feature.t) : Prop :=
  Feature.project_id row = project_id
  /\ Feature.feature_name row = input_name input
  /\ Feature.description row = get_or (input_description input) ""
  /\ priority_of_string (get_or (input_priority input) "MEDIUM")
     = Some (Feature.priority row)
  /\ Feature.status row = FeaturePending
  /\ Feature.retry_count row = 0
  /\ Feature.max_retries row = 3.

Definition valid_priority (input : feature_input) : Prop :=
  priority_of_string (get_or (input_priority input) "MEDIUM") <> None.

(** The primary key of every table identifies its rows. *)
Definition all_keyed (d : db) : Prop :=
  NoDup (map Project.id (rows (projects d)))
  /\ NoDup (map Phase.id (rows (phases d)))
  /\ NoDup (map Agent.id (rows (agents d)))
  /\ NoDup (map Feature.id (rows (features d)))
  /\ NoDup (map Gate.id (rows (approval_gates d)))
  /\ NoDup (map Artifact.id (rows (artifacts d)))
  /\ NoDup (map Audit.id (rows (audit_log d)))
  /\ NoDup (map Dep.id (rows (dependencies d))).

Definition keys_kept (d d' : db) : Prop := all_keyed d -> all_keyed d'.

(** The place of a priority in the feature list of [get_project_state]:
    the priorities compared as text, largest first. *)
Definition listing_rank (p : priority) : Z :=
  match p with
  | MEDIUM => 1
  | LOW => 2
  | HIGH => 3
  end.

(** The artifacts [list_artifacts] is asked for. *)
Definition listed_artifact (project_id : Z) (filter_type : option string)
    (r : Artifact.t) : bool :=
  (Artifact.project_id r =? project_id)
  && match filter_type with
     | Some t => String.eqb t "" || String.eqb (Artifact.artifact_type r) t
     | None => true
     end.

Definition is_record_approval (r : request) : bool :=
  match r with
  | workflow_tool (appforge_record_approval _ _ _ _) => true
  | _ => false
  end.

(** The tools that only report on the state. *)
Definition is_report (r : request) : bool :=
  match r with
  | workflow_tool (appforge_can_start_agent _ _) => true
  | workflow_tool (appforge_get_next_agents _) => true
  | workflow_tool (appforge_get_next_feature _) => true
  | workflow_tool _ => false
  | appforge_save_artifact _ _ _ _ _ _ _ => false
  | _ => true
  end.

(** [n] successive calls of a method. *)
Fixpoint repeat_call {A : Type} (n : nat) (m : method A) (w : world) : world :=
  match n with
  | O => w
  | S n' => repeat_call n' m (snd (m w))
  end.

(** *** Further sample states *)


(** * Properties *)

(** Running a method body reduces the plumbing of the transaction and
    leaves the statements and the string functions folded. *)
Arguments update : simpl never.
Arguments select : simpl never.
Arguments insert : simpl never.
Arguments fetchone : simpl never.
Arguments order_by : simpl never.
Arguments next_rowid : simpl never.
Arguments fits_integer : simpl never.
Arguments Py.contains : simpl never.
Arguments Py.split : simpl never.
Arguments Py.int_of_str : simpl never.
Arguments Py.str_of_int : simpl never.
Arguments Py.join : simpl never.
Arguments Py.truthy_int : simpl never.
Arguments fstr : simpl never.
Arguments firstn : simpl never.

Ltac tx_run :=
  unfold get_connection, bind, ret, raise, query, execute, datetime_now,
    log_event, call, bind_integer, insert_agent, except_integrity;
  cbn.

(** ** Records and tables *)

Lemma world_eta (w : world) : World (store w) (clock w) (tick w) = w.
Proof. destruct w; reflexivity. Qed.

Lemma table_eta {R : Type} (t : table R) : Table (rows t) (seq t) = t.
Proof. destruct t; reflexivity. Qed.

Lemma db_eta (d : db) :
  Db (projects d) (phases d) (agents d) (features d) (approval_gates d)
     (artifacts d) (audit_log d) (dependencies d) = d.
Proof. destruct d; reflexivity. Qed.


Lemma on_gates_same (f : table Gate.t -> table Gate.t) (d : db) :
  f (approval_gates d) = approval_gates d -> on_gates f d = d.
Proof. unfold on_gates. intros ->. apply db_eta. Qed.

Lemma fetchone_select {R : Type} `{Row R} (cond : R -> bool) (t : table R) :
  fetchone (select cond t) = find cond (rows t).
Proof.
  unfold fetchone, select. induction (rows t) as [|r l IH]; simpl.
  - reflexivity.
  - destruct (cond r); simpl; auto.
Qed.

Lemma map_unmatched {R : Type} (cond : R -> bool) (assign : R -> R)
    (l : list R) :
  (forall r, In r l -> cond r = false) ->
  map (fun r => if cond r then assign r else r) l = l.
Proof.
  induction l as [|r l IH]; simpl; intros Hl.
  - reflexivity.
  - rewrite (Hl r (or_introl eq_refl)), IH; auto.
Qed.

(** An UPDATE whose WHERE clause matches no row leaves the table as it is. *)
Lemma update_unmatched {R : Type} `{Row R} (cond : R -> bool)
    (assign : R -> R) (t : table R) :
  (forall r, In r (rows t) -> cond r = false) ->
  update cond assign t = t.
Proof.
  intros Hl. unfold update. rewrite map_unmatched by assumption.
  apply table_eta.
Qed.


Lemma find_update {R : Type} (cond : R -> bool) (assign : R -> R)
    (l : list R) :
  (forall r, cond (assign r) = cond r) ->
  find cond (map (fun r => if cond r then assign r else r) l)
  = option_map assign (find cond l).
Proof.
  intros Hkey. induction l as [|r l IH]; simpl; [reflexivity|].
  destruct (cond r) eqn:Hr.
  - now rewrite Hkey, Hr.
  - now rewrite Hr.
Qed.

(** ** ORDER BY *)

Section OrderBy.
Context {R : Type} (le : R -> R -> bool).
Hypothesis le_total : forall a b, le a b = true \/ le b a = true.
Hypothesis le_trans :
  forall a b c, le a b = true -> le b c = true -> le a c = true.

Let ordered (a b : R) : Prop := le a b = true.

Lemma insert_sorted_perm (x : R) (l : list R) :
  Permutation (x :: l) (insert_sorted le x l).
Proof.
  induction l as [|y l IH]; simpl.
  - apply Permutation_refl.
  - destruct (le x y).
    + apply Permutation_refl.
    + eapply perm_trans; [apply perm_swap|]. now apply perm_skip.
Qed.

Lemma order_by_perm (l : list R) : Permutation l (order_by le l).
Proof.
  induction l as [|x l IH]; simpl.
  - constructor.
  - eapply perm_trans; [|apply insert_sorted_perm]. now apply perm_skip.
Qed.

Lemma order_by_in (l : list R) (x : R) : In x (order_by le l) <-> In x l.
Proof.
  split; apply Permutation_in;
    [apply Permutation_sym|]; apply order_by_perm.
Qed.

Lemma insert_sorted_sorted (x : R) (l : list R) :
  StronglySorted ordered l -> StronglySorted ordered (insert_sorted le x l).
Proof.
  induction 1 as [|y l Hl IH Hy]; simpl.
  - repeat constructor.
  - destruct (le x y) eqn:Hxy.
    + constructor; [constructor; assumption|].
      constructor; [exact Hxy|].
      rewrite Forall_forall in *. intros z Hz.
      eapply le_trans; [exact Hxy|]. now apply Hy.
    + constructor; [exact IH|].
      assert (Hyx : le y x = true).
      { destruct (le_total x y) as [H|H]; [congruence|exact H]. }
      rewrite Forall_forall in *. intros z Hz.
      apply (Permutation_in _ (Permutation_sym (insert_sorted_perm x l)))
        in Hz.
      destruct Hz as [<-|Hz]; [exact Hyx|now apply Hy].
Qed.

Lemma order_by_sorted (l : list R) : StronglySorted ordered (order_by le l).
Proof.
  induction l as [|x l IH]; simpl.
  - constructor.
  - now apply insert_sorted_sorted.
Qed.

(** The first row of an ordered result is least among all of them. *)
Lemma order_by_head (l : list R) (x : R) :
  hd_error (order_by le l) = Some x ->
  In x l /\ forall y, In y l -> le x y = true.
Proof.
  intros Hhd. pose proof (order_by_sorted l) as Hs.
  destruct (order_by le l) as [|z s] eqn:Hl; [discriminate|].
  injection Hhd as ->.
  assert (Hx : In x l) by (apply order_by_in; rewrite Hl; now left).
  split; [exact Hx|]. intros y Hy.
  apply order_by_in in Hy. rewrite Hl in Hy.
  inversion Hs as [|? ? _ Hall]; subst.
  destruct Hy as [<-|Hy].
  - destruct (le_total x x); assumption.
  - rewrite Forall_forall in Hall. now apply Hall.
Qed.

Lemma order_by_empty (l : list R) : order_by le l = [] -> l = [].
Proof.
  intros Hl. pose proof (order_by_perm l) as Hp. rewrite Hl in Hp.
  now apply Permutation_sym, Permutation_nil in Hp.
Qed.

End OrderBy.

(** ** The readiness check *)

Lemma agent_status_eqb_eq (a b : agent_status) :
  agent_status_eqb a b = true <-> a = b.
Proof. destruct a, b; simpl; split; intros; congruence. Qed.

Lemma feature_status_eqb_eq (a b : feature_status) :
  feature_status_eqb a b = true <-> a = b.
Proof. destruct a, b; simpl; split; intros; congruence. Qed.

Lemma gate_status_eqb_eq (a b : gate_status) :
  gate_status_eqb a b = true <-> a = b.
Proof. destruct a, b; simpl; split; intros; congruence. Qed.

(** Membership in [completed_names] is having a complete run record. *)
Lemma completed_names_spec (d : db) (p : Z) (a : string) :
  existsb (String.eqb a)
    (map Agent.agent_name
       (select (fun r => (Agent.project_id r =? p)
                         && agent_status_eqb (Agent.status r) AgentComplete)
               (agents d))) = true
  <-> has_complete_record d p a.
Proof.
  unfold has_complete_record, select. rewrite existsb_exists. split.
  - intros (n & Hn & Heq). apply in_map_iff in Hn as (r & <- & Hr).
    apply filter_In in Hr as (Hr & Hc).
    apply andb_true_iff in Hc as (Hp & Hs).
    exists r. repeat split; trivial.
    + now apply Z.eqb_eq.
    + symmetry. now apply String.eqb_eq.
    + now apply agent_status_eqb_eq.
  - intros (r & Hr & Hp & Ha & Hs). exists (Agent.agent_name r). split.
    + apply in_map, filter_In. split; [exact Hr|].
      apply andb_true_iff. split; [now apply Z.eqb_eq|].
      now apply agent_status_eqb_eq.
    + apply String.eqb_eq. now symmetry.
Qed.

Lemma holds_complete_spec (d : db) (p : Z) (a : string) :
  holds_complete d p a = true <-> has_complete_record d p a.
Proof.
  unfold holds_complete, has_complete_record. rewrite existsb_exists.
  split; intros (r & Hr & H); exists r.
  - apply andb_true_iff in H as (H & Hs).
    apply andb_true_iff in H as (Hp & Ha).
    repeat split; trivial.
    + now apply Z.eqb_eq.
    + now apply String.eqb_eq.
    + now apply agent_status_eqb_eq.
  - destruct H as (Hp & Ha & Hs). split; [exact Hr|].
    rewrite !andb_true_iff. repeat split.
    + now apply Z.eqb_eq.
    + now apply String.eqb_eq.
    + now apply agent_status_eqb_eq.
Qed.

(** No prerequisite is missing exactly when each has a complete record. *)
Lemma missing_empty_iff (d : db) (p : Z) (deps : list string) :
  Nat.eqb (List.length
     (filter (fun dep =>
                negb (existsb (String.eqb dep)
                        (map Agent.agent_name
                           (select (fun r =>
                                      (Agent.project_id r =? p)
                                      && agent_status_eqb (Agent.status r)
                                                          AgentComplete)
                                   (agents d)))))
             deps)) 0%nat = true
  <-> forall pre, In pre deps -> has_complete_record d p pre.
Proof.
  rewrite Nat.eqb_eq, length_zero_iff_nil. split.
  - intros Hnil pre Hpre. apply completed_names_spec.
    destruct (existsb _ _) eqn:He; [reflexivity|].
    assert (Hin : In pre []); [|destruct Hin].
    rewrite <- Hnil. apply filter_In. split; [exact Hpre|].
    now rewrite He.
  - intros Hall. induction deps as [|pre deps IH]; simpl; [reflexivity|].
    rewrite (proj2 (completed_names_spec d p pre)
                   (Hall pre (or_introl eq_refl))).
    simpl. apply IH. intros. apply Hall. now right.
Qed.

(** [can_start_agent] only reads: it returns a dictionary and leaves the
    state as it found it. *)
Lemma can_start_agent_reads (p : Z) (a : string) (w : world) :
  exists r, can_start_agent p a w = (inr r, w).
Proof.
  unfold can_start_agent, get_connection, bind, query, ret. simpl.
  destruct (fetchone _) as [dep|]; simpl; rewrite world_eta; eauto.
Qed.

Lemma can_start_agent_known (p : Z) (a : string) (w : world) (dep : Dep.t) :
  find_dependency (store w) a = Some dep ->
  exists info,
    can_start_agent p a w = (inr (CanStart info), w)
    /\ required_phase info = Dep.phase_number dep
    /\ agent_dependencies info = Dep.depends_on dep
    /\ (can_start info = false -> missing_dependencies info <> []).
Proof.
  intros Hdep.
  unfold can_start_agent, get_connection, bind, query, ret. simpl.
  rewrite fetchone_select. unfold find_dependency in Hdep. rewrite Hdep.
  simpl. rewrite world_eta. eexists. split; [reflexivity|]. simpl.
  repeat split.
  destruct (List.length _ =? 0)%nat eqn:Hlen; simpl.
  - destruct (_ <? _); simpl; [|discriminate].
    intros _ Hnil. now apply app_eq_nil in Hnil as [_ Hnil].
  - intros _ Hnil. rewrite Hnil in Hlen. discriminate.
Qed.

(** C1.  For a project with a row in [projects] and an agent name found in
    the dependency graph, [can_start_agent] answers [can_start = true]
    exactly when every prerequisite of the agent has a complete run record
    in the project and the project's current phase is at least the phase
    the agent requires.  When the prerequisites are all complete and the
    phase is too low, the answer is [false] and the missing list consists
    of the entry that describes the phase mismatch. *)
Theorem can_start_agent_iff (w : world) (p : Z) (a : string) (dep : Dep.t)
    (proj : Project.t) :
  find_dependency (store w) a = Some dep ->
  find_project (store w) p = Some proj ->
  exists info,
    can_start_agent p a w = (inr (CanStart info), w)
    /\ (can_start info = true <->
        (forall pre, In pre (Dep.depends_on dep) ->
                     has_complete_record (store w) p pre)
        /\ Dep.phase_number dep <= Project.current_phase proj)
    /\ ((forall pre, In pre (Dep.depends_on dep) ->
                     has_complete_record (store w) p pre) ->
        Project.current_phase proj < Dep.phase_number dep ->
        can_start info = false
        /\ missing_dependencies info =
           [phase_mismatch (Project.current_phase proj)
                           (Dep.phase_number dep)]).
Proof.
  intros Hdep Hproj.
  unfold can_start_agent, get_connection, bind, query, ret. simpl.
  unfold find_dependency in Hdep. unfold find_project in Hproj.
  rewrite fetchone_select, Hdep. cbn [view host].
  rewrite fetchone_select, Hproj, world_eta.
  eexists. split; [reflexivity|]. simpl.
  pose proof (missing_empty_iff (store w) p (Dep.depends_on dep)) as Hmiss.
  destruct (Nat.eqb _ 0) eqn:Hlen; simpl.
  - assert (Hall : forall pre, In pre (Dep.depends_on dep) ->
                               has_complete_record (store w) p pre)
      by now apply Hmiss.
    apply Nat.eqb_eq, length_zero_iff_nil in Hlen.
    destruct (Z.ltb_spec (Project.current_phase proj) (Dep.phase_number dep))
      as [Hlt|Hge]; simpl.
    + split.
      * split; [discriminate|]. intros [_ Hle]. lia.
      * intros _ _. split; [reflexivity|]. rewrite Hlen. reflexivity.
    + split.
      * split; [intros _; split; [exact Hall|lia]|reflexivity].
      * intros _ Hlt. lia.
  - split.
    + split; [discriminate|]. intros [Hall _].
      apply Hmiss in Hall. discriminate.
    + intros Hall _. apply Hmiss in Hall. discriminate.
Qed.

Lemma can_start_agent_iff_witness :
  let w := after [appforge_mark_agent_complete 1 "input-agent" (JObj [])]
                 project_world in
  let dep := Dep.Make 2 "requirements-analyst" ["input-agent"] 1 in
  let proj := Project.Make 1 "P" "demo" "default" 0 Active
                           1700000000 1700000005 in
  find_dependency (store w) "requirements-analyst" = Some dep
  /\ find_project (store w) 1 = Some proj
  /\ exists info,
       can_start_agent 1 "requirements-analyst" w = (inr (CanStart info), w)
       /\ (can_start info = true <->
           (forall pre, In pre (Dep.depends_on dep) ->
                        has_complete_record (store w) 1 pre)
           /\ Dep.phase_number dep <= Project.current_phase proj)
       /\ ((forall pre, In pre (Dep.depends_on dep) ->
                        has_complete_record (store w) 1 pre) ->
           Project.current_phase proj < Dep.phase_number dep ->
           can_start info = false
           /\ missing_dependencies info =
              [phase_mismatch (Project.current_phase proj)
                              (Dep.phase_number dep)]).
Proof.
  intros w dep proj.
  split; [reflexivity|]. split; [reflexivity|].
  apply (can_start_agent_iff w 1 "requirements-analyst" dep proj);
    reflexivity.
Defined.

(** ** Run records of an agent *)

Lemma filter_update_unique {R : Type} (key : R -> Z) (P : R -> bool)
    (f : R -> R) (x : R) (l : list R) :
  NoDup (map key l) -> In x l -> P x = false -> P (f x) = true ->
  List.length
    (filter P (map (fun r => if key r =? key x then f r else r) l))
  = S (List.length (filter P l)).
Proof.
  intros Hnd Hin Hx Hfx. induction l as [|r l IH]; [destruct Hin|].
  cbn [map] in Hnd. apply NoDup_cons_iff in Hnd as [Hfresh Hnd].
  cbn [map filter]. destruct (Z.eqb_spec (key r) (key x)) as [Heq|Hne].
  - assert (r = x) as ->.
    { destruct Hin as [Hin|Hin]; [exact Hin|]. exfalso. apply Hfresh.
      rewrite Heq. now apply in_map. }
    rewrite Hfx, Hx. cbn [List.length]. f_equal. f_equal. f_equal.
    apply map_unmatched. intros y Hy. apply Z.eqb_neq. intros Hk.
    apply Hfresh. rewrite <- Hk. now apply in_map.
  - destruct Hin as [->|Hin]; [congruence|].
    destruct (P r); cbn [List.length]; rewrite IH; trivial.
Qed.

Lemma map_key_update {R : Type} (key : R -> Z) (cond : R -> bool)
    (f : R -> R) (l : list R) :
  (forall r, key (f r) = key r) ->
  map key (map (fun r => if cond r then f r else r) l) = map key l.
Proof.
  intros Hkey. rewrite map_map. apply map_ext. intros r.
  destruct (cond r); [apply Hkey|reflexivity].
Qed.

Lemma max_rowid_bound {R : Type} `{Row R} (l : list R) (r : R) :
  In r l -> rowid r <= max_rowid l.
Proof.
  induction l as [|y l IH]; cbn; [tauto|]. intros [->|Hin]; [lia|].
  specialize (IH Hin). unfold max_rowid in IH. lia.
Qed.

(** A row that INSERT adds has a key no other row of the table has. *)
Lemma insert_keeps_keys {R : Type} `{Row R} (mk : Z -> R) (t : table R) :
  (forall i, rowid (mk i) = i) ->
  NoDup (map rowid (rows t)) -> NoDup (map rowid (rows (insert mk t))).
Proof.
  intros Hmk Hnd. unfold insert. cbn [rows]. rewrite map_app. cbn [map].
  rewrite Hmk. apply NoDup_app; [exact Hnd|repeat constructor; tauto|].
  intros k Hk [<-|[]]. apply in_map_iff in Hk as (r & Hr & Hin).
  apply max_rowid_bound in Hin. unfold next_rowid in Hr. lia.
Qed.

Lemma open_run_not_complete (p : Z) (a : string) (r : Agent.t) :
  (Agent.project_id r =? p) && String.eqb (Agent.agent_name r) a
  && negb (agent_status_eqb (Agent.status r) AgentComplete) = true ->
  (Agent.project_id r =? p) && String.eqb (Agent.agent_name r) a
  && agent_status_eqb (Agent.status r) AgentComplete = false
  /\ forall art ts,
       (Agent.project_id (Agent.complete art ts r) =? p)
       && String.eqb (Agent.agent_name (Agent.complete art ts r)) a
       && agent_status_eqb (Agent.status (Agent.complete art ts r))
                           AgentComplete = true.
Proof.
  intros H. apply andb_true_iff in H as (Hpa & Hst).
  apply negb_true_iff in Hst. cbn. rewrite Hpa, Hst. split; reflexivity.
Qed.

(** One call: the agent gains exactly one complete record, by an update in
    place when it has a record that is not complete, by an INSERT
    otherwise. *)
Lemma mark_agent_complete_step (w : world) (p : Z) (a : string) (art : json)
    (dep : Dep.t) :
  agents_keyed (store w) ->
  find_dependency (store w) a = Some dep ->
  exists r w',
    mark_agent_complete p a art w = (inr r, w')
    /\ success r = true
    /\ agents_keyed (store w')
    /\ dependencies (store w') = dependencies (store w)
    /\ List.length (complete_runs (store w') p a)
       = S (List.length (complete_runs (store w) p a))
    /\ (open_runs (store w) p a <> [] ->
        List.length (rows (agents (store w')))
        = List.length (rows (agents (store w))))
    /\ (open_runs (store w) p a = [] ->
        exists row,
          rows (agents (store w')) = rows (agents (store w)) ++ [row]
          /\ Agent.project_id row = p
          /\ Agent.agent_name row = a
          /\ Agent.status row = AgentComplete).
Proof.
  intros Hkeys Hdep. unfold find_dependency in Hdep.
  unfold mark_agent_complete. tx_run. rewrite fetchone_select, Hdep. cbn.
  unfold fetchone, select. fold (open_runs (store w) p a).
  destruct (open_runs (store w) p a) as [|found others] eqn:Hopen; cbn.
  - do 2 eexists. split; [reflexivity|]. split; [reflexivity|].
    unfold agents_keyed, complete_runs in *. cbn.
    split; [now apply (@insert_keeps_keys _ agent_row)|].
    split; [reflexivity|].
    split; [|split; [congruence|]].
    + unfold insert. cbn [rows].
      rewrite filter_app, length_app. cbn.
      rewrite Z.eqb_refl, String.eqb_refl. cbn. lia.
    + intros _. eexists. unfold insert. cbn [rows].
      split; [reflexivity|]. repeat split.
  - assert (Hfound : In found (open_runs (store w) p a))
      by (rewrite Hopen; now left).
    apply filter_In in Hfound as (Hin & Hcond).
    apply open_run_not_complete in Hcond as (Hnot & Hdone).
    do 2 eexists. split; [reflexivity|]. split; [reflexivity|].
    unfold agents_keyed, complete_runs in *. cbn.
    split; [|split; [reflexivity|split; [|split; [|discriminate]]]].
    + unfold update. cbn [rows]. now rewrite map_key_update.
    + unfold update. cbn [rows]. now apply filter_update_unique.
    + intros _. unfold update. cbn [rows]. apply length_map.
Qed.


(** ** What the methods leave alone: the agents table

    Only [mark_agent_complete] writes to the agents table; framing it is
    closed under the combinators of the transaction monad. *)

Lemma frames_ret {A : Type} (a : A) : frames_agents (ret a).
Proof. intros c. split; reflexivity. Qed.

Lemma frames_raise {A : Type} (e : exn) : frames_agents (@raise A e).
Proof. intros c. split; reflexivity. Qed.

Lemma frames_query {A : Type} (q : db -> A) : frames_agents (query q).
Proof. intros c. split; reflexivity. Qed.

Lemma frames_now : frames_agents datetime_now.
Proof. intros c. split; reflexivity. Qed.

Lemma frames_execute (stmt : db -> db) :
  (forall d, agents (stmt d) = agents d) -> frames_agents (execute stmt).
Proof. intros Hstmt c. split; [apply Hstmt|reflexivity]. Qed.

Lemma frames_bind {A B : Type} (m : Tx A) (k : A -> Tx B) :
  frames_agents m -> (forall a, frames_agents (k a)) ->
  frames_agents (bind m k).
Proof.
  intros Hm Hk c. unfold bind. specialize (Hm c).
  destruct (m c) as [[e|a] c']; cbn [snd] in *; [exact Hm|].
  destruct (Hk a c') as [Hv Hh]. destruct Hm as [Hv' Hh'].
  split; congruence.
Qed.

Lemma frames_except {A : Type} (body handler : Tx A) :
  frames_agents body -> frames_agents handler ->
  frames_agents (except_integrity body handler).
Proof.
  intros Hb Hh c. unfold except_integrity. specialize (Hb c).
  destruct (body c) as [[[v| |]|a] c']; cbn [snd] in *; trivial.
  destruct (Hh c') as [Hv Hs]. destruct Hb as [Hv' Hs'].
  split; congruence.
Qed.

Lemma frames_for_each {A S : Type} (items : list A) (body : A -> S -> Tx S) :
  (forall x acc, frames_agents (body x acc)) ->
  forall acc, frames_agents (for_each items body acc).
Proof.
  intros Hbody. induction items as [|x items IH]; intros acc; cbn.
  - apply frames_ret.
  - apply frames_bind; [apply Hbody|exact IH].
Qed.

Lemma frames_call {A : Type} (m : method A) :
  (forall w, agents (store (snd (m w))) = agents (store w)) ->
  frames_agents (call m).
Proof.
  intros Hm c. unfold call. specialize (Hm (host c)).
  destruct (m (host c)) as [r w']. split; [reflexivity|exact Hm].
Qed.

(** A method whose body frames the agents table commits or rolls back to
    a state with the same agents table. *)
Lemma get_connection_frames {A : Type} (body : Tx A) (w : world) :
  frames_agents body ->
  agents (store (snd (get_connection body w))) = agents (store w).
Proof.
  intros Hbody. unfold get_connection.
  destruct (Hbody (Conn (store w) w)) as [Hv Hh].
  destruct (body _) as [[e|a] c]; cbn [snd view host store] in *;
    assumption.
Qed.

Ltac frame_step :=
  first
    [ apply frames_ret | apply frames_raise | apply frames_query
    | apply frames_now
    | apply frames_execute; intros; reflexivity
    | apply frames_bind; [|intros]
    | apply frames_except
    | apply frames_for_each; intros
    | apply frames_call; intros;
      match goal with
      | |- context [can_start_agent ?p ?a ?w] =>
          destruct (can_start_agent_reads p a w) as (? & ->); reflexivity
      end
    | match goal with
      | |- frames_agents (match ?x with _ => _ end) => destruct x
      | |- frames_agents (if ?b then _ else _) => destruct b
      end ].

Ltac frame :=
  apply get_connection_frames;
  unfold log_event, insert_phase, gate_number_of, bind_integer, visit_agent;
  repeat frame_step.

Lemma call_tool_keeps_agent_keys (c : tool_call) (w : world) :
  agents_keyed (store w) -> agents_keyed (store (snd (call_tool c w))).
Proof.
  intros Hkeys. unfold call_tool.
  assert (Hframe : agents (store (snd (route c w))) = agents (store w)
                   \/ agents_keyed (store (snd (route c w)))).
  { destruct c as [n d t|p a|p a art|p a e|p|p fs|p|p f|p f|p g k arts
                  |p g ok fb]; cbn [route];
      try (left; unfold create_project, can_start_agent, get_next_agents,
             add_features, get_next_feature, mark_feature_complete,
             record_feature_retry, request_approval, record_approval,
             mark_agent_failed, insert_agent;
           frame; fail).
    - destruct (find_dependency (store w) a) as [dep|] eqn:Hdep.
      + right.
        destruct (mark_agent_complete_step w p a art dep Hkeys Hdep)
          as (r & w' & -> & _ & Hk & _).
        exact Hk.
      + left. unfold mark_agent_complete, get_connection, bind, query, ret.
        cbn [view]. rewrite fetchone_select.
        unfold find_dependency in Hdep. rewrite Hdep. reflexivity. }
  destruct (route c w) as [[e|r] w']; cbn [snd] in *;
    (destruct Hframe as [Heq|Hk]; [|exact Hk]);
    unfold agents_keyed; now rewrite Heq.
Qed.

(** The agents key is unique in every state the tools can reach from a new
    database. *)
Lemma agents_keyed_reachable (calls : list tool_call) :
  agents_keyed (store (after calls fresh_world)).
Proof.
  unfold after.
  assert (Hstart : agents_keyed (store fresh_world)) by constructor.
  revert Hstart. generalize fresh_world.
  induction calls as [|c calls IH]; intros w Hkeys; cbn [fold_left].
  - exact Hkeys.
  - apply IH. now apply call_tool_keeps_agent_keys.
Qed.




(** ** Failure records *)

(** C4.  [mark_agent_failed] never inserts a run record: its INSERT leaves
    out [phase_number], which the schema declares NOT NULL without a
    default, so every call raises an integrity error, the transaction is
    rolled back and the tool reports a failure.  No sequence of calls
    yields a failed row. *)
Theorem mark_agent_failed_raises (w : world) (p : Z) (a e : string) :
  exists w',
    mark_agent_failed p a e w
      = (inl (IntegrityError (NotNull "agents" "phase_number")), w')
    /\ call_tool (appforge_mark_agent_failed p a e) w
       = (Raised (IntegrityError (NotNull "agents" "phase_number"))
                 "appforge_mark_agent_failed", w')
    /\ store w' = store w
    /\ failed_runs (store w') p a = failed_runs (store w) p a.
Proof.
  eexists. split; [reflexivity|]. split; [reflexivity|].
  split; reflexivity.
Qed.

Example mark_agent_failed_on_new_project :
  let w := snd (call_tool (appforge_mark_agent_failed 1 "input-agent" "boom")
                          project_world) in
  response_success
    (fst (call_tool (appforge_mark_agent_failed 1 "input-agent" "boom")
                    project_world)) = false
  /\ failed_runs (store w) 1 "input-agent" = [].
Proof. split; reflexivity. Qed.

(** ** Next-agent enumeration *)

Lemma by_phase_then_name_total (a b : Dep.t) :
  by_phase_then_name a b = true \/ by_phase_then_name b a = true.
Proof.
  unfold by_phase_then_name.
  rewrite !orb_true_iff, !andb_true_iff, !Z.ltb_lt, !Z.eqb_eq.
  destruct (String.leb_total (Dep.agent_name a) (Dep.agent_name b));
    destruct (Z.lt_total (Dep.phase_number a) (Dep.phase_number b))
      as [?|[?|?]]; auto.
Qed.

Lemma string_compare_lt_trans (a b c : string) :
  String.compare a b = Lt -> String.compare b c = Lt ->
  String.compare a c = Lt.
Proof.
  revert b c. induction a as [|x a IH]; intros [|y b] [|z c]; cbn;
    try congruence.
  unfold Ascii.compare.
  destruct (N.compare_spec (N_of_ascii x) (N_of_ascii y));
    destruct (N.compare_spec (N_of_ascii y) (N_of_ascii z));
    destruct (N.compare_spec (N_of_ascii x) (N_of_ascii z));
    try congruence; try lia.
  apply IH.
Qed.

Lemma string_leb_trans (a b c : string) :
  String.leb a b = true -> String.leb b c = true -> String.leb a c = true.
Proof.
  unfold String.leb.
  destruct (String.compare a b) eqn:Hab; try discriminate; intros _;
    destruct (String.compare b c) eqn:Hbc; try discriminate; intros _.
  - apply String.compare_eq_iff in Hab as ->. now rewrite Hbc.
  - apply String.compare_eq_iff in Hab as ->. now rewrite Hbc.
  - apply String.compare_eq_iff in Hbc as <-. now rewrite Hab.
  - now rewrite (string_compare_lt_trans a b c).
Qed.

Lemma by_phase_then_name_trans (a b c : Dep.t) :
  by_phase_then_name a b = true -> by_phase_then_name b c = true ->
  by_phase_then_name a c = true.
Proof.
  unfold by_phase_then_name.
  rewrite !orb_true_iff, !andb_true_iff, !Z.ltb_lt, !Z.eqb_eq.
  intros [Hab|[Hab Hn1]] [Hbc|[Hbc Hn2]]; try (left; lia).
  right. split; [lia|]. now apply (string_leb_trans _ (Dep.agent_name b)).
Qed.

Lemma in_firstn {A : Type} (n : nat) (l : list A) (x : A) :
  In x (firstn n l) -> In x l.
Proof.
  intros Hin. rewrite <- (firstn_skipn n l). apply in_or_app. now left.
Qed.

Lemma find_existsb {R : Type} (cond : R -> bool) (l : list R) :
  existsb cond l = match find cond l with Some _ => true | None => false end.
Proof.
  induction l as [|r l IH]; cbn; [reflexivity|].
  destruct (cond r); cbn; [reflexivity|exact IH].
Qed.

(** One visit leaves the connection as it was and files the agent as
    [ready_of] and [blocked_of] say. *)
Lemma visit_agent_run (w : world) (p : Z) (row : Dep.t)
    (ready : list ready_agent) (blocked : list blocked_agent) :
  visit_agent p row (ready, blocked) (Conn (store w) w)
  = (inr (ready ++ ready_of w p row, blocked ++ blocked_of w p row),
     Conn (store w) w).
Proof.
  unfold visit_agent, ready_of, blocked_of, check_info, holds_complete.
  rewrite find_existsb.
  destruct (can_start_agent_reads p (Dep.agent_name row) w) as (r & Hr).
  unfold bind, call, query, ret. cbn [host view]. rewrite Hr. cbn [fst].
  destruct r; cbn [app]; rewrite ?app_nil_r; try reflexivity.
  destruct (can_start info); cbn [negb andb view].
  - rewrite fetchone_select.
    destruct (find _ _); cbn [negb]; now rewrite ?app_nil_r.
  - destruct (negb _); now rewrite ?app_nil_r.
Qed.

Lemma next_agents_loop (w : world) (p : Z) (items : list Dep.t) :
  forall ready blocked,
    for_each items (visit_agent p) (ready, blocked) (Conn (store w) w)
    = (inr (ready ++ flat_map (ready_of w p) items,
            blocked ++ flat_map (blocked_of w p) items),
       Conn (store w) w).
Proof.
  induction items as [|row items IH]; intros ready blocked;
    cbn [for_each flat_map].
  - unfold ret. now rewrite !app_nil_r.
  - unfold bind. rewrite visit_agent_run, IH. now rewrite !app_assoc.
Qed.

Lemma get_next_agents_run (w : world) (p : Z) :
  get_next_agents p w
  = (inr (NextAgents
            (flat_map (ready_of w p) (iteration_order (store w)))
            (firstn 5 (flat_map (blocked_of w p)
                                (iteration_order (store w))))), w).
Proof.
  unfold get_next_agents, get_connection, bind, query, ret. cbn [view].
  fold (iteration_order (store w)). rewrite next_agents_loop.
  cbn [fst snd app view host]. now rewrite world_eta.
Qed.

(** Every row of the dependency graph names an agent the check knows. *)
Lemma listed_agent_known (d : db) (row : Dep.t) :
  In row (rows (dependencies d)) ->
  exists dep, find_dependency d (Dep.agent_name row) = Some dep.
Proof.
  intros Hin. unfold find_dependency.
  destruct (find _ _) as [dep|] eqn:Hfind; [now exists dep|].
  apply (find_none _ _ Hfind) in Hin. now rewrite String.eqb_refl in Hin.
Qed.

Lemma listed_agent_checked (w : world) (p : Z) (row : Dep.t) :
  In row (rows (dependencies (store w))) ->
  exists info,
    check_info w p (Dep.agent_name row) = Some info
    /\ (can_start info = false ->
        negb (List.length (missing_dependencies info) =? 0)%nat = true).
Proof.
  intros Hin. destruct (listed_agent_known _ _ Hin) as (dep & Hdep).
  destruct (can_start_agent_known p _ w dep Hdep)
    as (info & Hrun & _ & _ & Hmiss).
  exists info. unfold check_info. rewrite Hrun. split; [reflexivity|].
  intros Hno. specialize (Hmiss Hno).
  destruct (missing_dependencies info); [congruence|reflexivity].
Qed.

Lemma ready_names (w : world) (p : Z) (items : list Dep.t) :
  map ready_name (flat_map (ready_of w p) items)
  = map Dep.agent_name
      (filter (fun row =>
                 passes_check w p (Dep.agent_name row)
                 && negb (holds_complete (store w) p (Dep.agent_name row)))
              items).
Proof.
  induction items as [|row items IH]; [reflexivity|].
  cbn [flat_map filter]. rewrite map_app, IH.
  unfold ready_of, passes_check.
  destruct (check_info w p (Dep.agent_name row)) as [info|];
    [|reflexivity].
  destruct (can_start info && negb _); reflexivity.
Qed.

Lemma blocked_names (w : world) (p : Z) (items : list Dep.t) :
  (forall row, In row items -> In row (rows (dependencies (store w)))) ->
  map blocked_name (flat_map (blocked_of w p) items)
  = map Dep.agent_name
      (filter (fun row => negb (passes_check w p (Dep.agent_name row)))
              items).
Proof.
  induction items as [|row items IH]; intros Hlisted; [reflexivity|].
  cbn [flat_map filter].
  rewrite map_app, IH by (intros; apply Hlisted; now right).
  destruct (listed_agent_checked w p row (Hlisted row (or_introl eq_refl)))
    as (info & Hinfo & Hmiss).
  unfold blocked_of, passes_check. rewrite Hinfo.
  destruct (can_start info); [reflexivity|].
  rewrite (Hmiss eq_refl). reflexivity.
Qed.

(** The claim of C5 fails on the code: "requirements-analyst" holds a
    complete record in project 1 and is listed as blocked, because its
    prerequisite is missing. *)
Lemma get_next_agents_lists_complete_agent_as_blocked :
  let w := early_complete_world in
  has_complete_record (store w) 1 "requirements-analyst"
  /\ exists ready blocked,
       get_next_agents 1 w = (inr (NextAgents ready blocked), w)
       /\ In "requirements-analyst" (map blocked_name blocked).
Proof.
  intros w. split.
  - apply holds_complete_spec. vm_compute. reflexivity.
  - do 2 eexists. split; [apply get_next_agents_run|].
    vm_compute. left. reflexivity.
Qed.

(** C5, as the code has it.  [get_next_agents] visits the agents of the
    dependency graph in (phase, name) order.  An agent that passes the
    readiness check is listed as ready if it has no complete record and is
    left out of both lists if it has one; an agent that fails the check is
    listed as blocked, whether or not it has a complete record; the blocked
    list is cut to its first five entries.  The state is left unchanged. *)
Theorem get_next_agents_partition (w : world) (p : Z) :
  let visited := iteration_order (store w) in
  exists ready blocked,
    get_next_agents p w = (inr (NextAgents ready blocked), w)
    /\ Permutation (rows (dependencies (store w))) visited
    /\ StronglySorted (fun a b => by_phase_then_name a b = true) visited
    /\ map ready_name ready
       = map Dep.agent_name
           (filter (fun row =>
                      passes_check w p (Dep.agent_name row)
                      && negb (holds_complete (store w) p
                                              (Dep.agent_name row)))
                   visited)
    /\ map blocked_name blocked
       = firstn 5
           (map Dep.agent_name
              (filter (fun row =>
                         negb (passes_check w p (Dep.agent_name row)))
                      visited))
    /\ (forall a, has_complete_record (store w) p a ->
                  ~ In a (map ready_name ready))
    /\ (forall a, passes_check w p a = true ->
                  ~ In a (map blocked_name blocked)).
Proof.
  intros visited. do 2 eexists. split; [apply get_next_agents_run|].
  fold visited.
  assert (Hperm : Permutation (rows (dependencies (store w))) visited)
    by apply order_by_perm.
  assert (Hblocked :
            map blocked_name (flat_map (blocked_of w p) visited)
            = map Dep.agent_name
                (filter (fun row =>
                           negb (passes_check w p (Dep.agent_name row)))
                        visited)).
  { apply blocked_names. intros row Hrow.
    now apply (Permutation_in _ (Permutation_sym Hperm)). }
  split; [exact Hperm|].
  split; [apply order_by_sorted;
          [apply by_phase_then_name_total|apply by_phase_then_name_trans]|].
  split; [apply ready_names|].
  split; [now rewrite <- firstn_map, Hblocked|].
  split.
  - intros a Ha Hin. rewrite ready_names in Hin.
    apply in_map_iff in Hin as (row & <- & Hrow).
    apply filter_In in Hrow as (_ & Hc).
    apply andb_true_iff in Hc as (_ & Hc).
    apply holds_complete_spec in Ha. now rewrite Ha in Hc.
  - intros a Ha Hin. rewrite <- firstn_map, Hblocked in Hin.
    apply in_firstn in Hin.
    apply in_map_iff in Hin as (row & <- & Hrow).
    apply filter_In in Hrow as (_ & Hc). now rewrite Ha in Hc.
Qed.

(** ** The feature backlog *)

Lemma by_rank_then_id_total (a b : Feature.t) :
  by_rank_then_id a b = true \/ by_rank_then_id b a = true.
Proof.
  unfold by_rank_then_id.
  rewrite !orb_true_iff, !andb_true_iff, !Z.ltb_lt, !Z.eqb_eq, !Z.leb_le.
  lia.
Qed.

Lemma by_rank_then_id_trans (a b c : Feature.t) :
  by_rank_then_id a b = true -> by_rank_then_id b c = true ->
  by_rank_then_id a c = true.
Proof.
  unfold by_rank_then_id.
  rewrite !orb_true_iff, !andb_true_iff, !Z.ltb_lt, !Z.eqb_eq, !Z.leb_le.
  lia.
Qed.


Lemma pending_feature_select (d : db) (p : Z) (f : Feature.t) :
  In f (select (fun r => (Feature.project_id r =? p)
                         && feature_status_eqb (Feature.status r)
                                               FeaturePending)
               (features d))
  <-> pending_feature d p f.
Proof.
  unfold select, pending_feature.
  rewrite filter_In, andb_true_iff, Z.eqb_eq, feature_status_eqb_eq.
  tauto.
Qed.

Lemma firstn_1_head {A : Type} (l : list A) :
  hd_error (firstn 1 l) = hd_error l.
Proof. destruct l; reflexivity. Qed.


(** ** Feature rows are addressed by id alone *)








(** ** Approval gates *)

Lemma record_approval_bad_number (w : world) (p : Z) (g : string)
    (fb : option string) (first tok : string) (rest : list string) :
  Py.contains "Gate" g = true ->
  Py.split g = first :: tok :: rest ->
  Py.int_of_str tok = None ->
  record_approval p g true fb w
  = (inl (ValueError tok), World (store w) (clock w) (S (tick w))).
Proof.
  intros Hgate Hsplit Hint. unfold record_approval, gate_number_of. tx_run.
  rewrite Hgate, Hsplit, Hint. reflexivity.
Qed.

(** C9.  There is an input on which [record_approval] with
    [approved = true] fails as a whole: the gate name "Feature Gate"
    contains "Gate" and its second token, "Gate", is not an integer
    literal, so [int] raises [ValueError] inside the transaction.  The
    staged resolution of the pending gate is rolled back with everything
    else, and [call_tool] reports a failure that names the tool. *)
Theorem record_approval_rolls_back_on_bad_gate_number :
  exists (w : world) (p : Z) (g : string) (gate : Gate.t),
    pending_gate (store w) p g gate
    /\ Py.contains "Gate" g = true
    /\ (exists tok, nth_error (Py.split g) 1 = Some tok
                    /\ Py.int_of_str tok = None)
    /\ exists w',
         record_approval p g true None w = (inl (ValueError "Gate"), w')
         /\ call_tool (appforge_record_approval p g true None) w
            = (Raised (ValueError "Gate") "appforge_record_approval", w')
         /\ response_success
              (fst (call_tool (appforge_record_approval p g true None) w))
            = false
         /\ store w' = store w
         /\ pending_gate (store w') p g gate.
Proof.
  pose (w := gate_world "Feature Gate").
  pose (gate := Gate.Make 1 1 "Feature Gate" MustApprove GatePending
                          ["spec.md"] None 1700000004 None).
  assert (Hpending : pending_gate (store w) 1 "Feature Gate" gate).
  { unfold pending_gate. split; [vm_compute; left; reflexivity|].
    repeat split. }
  assert (Hrun : record_approval 1 "Feature Gate" true None w
                 = (inl (ValueError "Gate"),
                    World (store w) (clock w) (S (tick w)))).
  { apply (record_approval_bad_number w 1 "Feature Gate" None
             "Feature" "Gate" []); vm_compute; reflexivity. }
  exists w, 1, "Feature Gate", gate.
  split; [exact Hpending|].
  split; [vm_compute; reflexivity|].
  split; [exists "Gate"; split; vm_compute; reflexivity|].
  exists (World (store w) (clock w) (S (tick w))).
  split; [exact Hrun|].
  unfold call_tool, route. rewrite Hrun. cbn [fst store].
  split; [reflexivity|]. split; [reflexivity|].
  split; [reflexivity|exact Hpending].
Qed.

Lemma gate_2_parses :
  Py.contains "Gate" "Gate 2" = true
  /\ Py.split "Gate 2" = ["Gate"; "2"]
  /\ Py.int_of_str "2" = Some 2.
Proof. repeat split. Qed.

(** C7.  For a project that has a row in [projects], a phase-2 row and a
    pending gate named "Gate 2", [record_approval] with [approved = true]
    sets the project's current phase to 2 and moves the phase-2 row to
    in_progress, stamped with the time of the update; with
    [approved = false] it leaves the projects and phases tables as they
    are.  Either way the pending gate is resolved. *)
Theorem record_approval_gate_2 (w : world) (p : Z) (fb : option string)
    (proj : Project.t) (ph : Phase.t) (gate : Gate.t) :
  find_project (store w) p = Some proj ->
  find_phase (store w) p 2 = Some ph ->
  pending_gate (store w) p "Gate 2" gate ->
  (exists reply w' proj' ph',
      record_approval p "Gate 2" true fb w = (inr reply, w')
      /\ success reply = true
      /\ find_project (store w') p = Some proj'
      /\ Project.current_phase proj' = 2
      /\ find_phase (store w') p 2 = Some ph'
      /\ Phase.status ph' = PhaseInProgress
      /\ Phase.started_at ph' = Some (clock w (S (S (tick w))))
      /\ In (Gate.resolve Approved fb (clock w (tick w)) gate)
            (rows (approval_gates (store w'))))
  /\ (exists reply w',
        record_approval p "Gate 2" false fb w = (inr reply, w')
        /\ success reply = true
        /\ projects (store w') = projects (store w)
        /\ phases (store w') = phases (store w)
        /\ In (Gate.resolve Rejected fb (clock w (tick w)) gate)
              (rows (approval_gates (store w')))).
Proof.
  intros Hproj Hph (Hin & Hgp & Hgn & Hgs).
  assert (Hcond : (Gate.project_id gate =? p)
                  && String.eqb (Gate.gate_name gate) "Gate 2"
                  && gate_status_eqb (Gate.status gate) GatePending = true).
  { rewrite !andb_true_iff. repeat split.
    - now apply Z.eqb_eq.
    - now apply String.eqb_eq.
    - now apply gate_status_eqb_eq. }
  destruct gate_2_parses as (Hgate & Hsplit & Hint).
  split.
  - unfold record_approval, gate_number_of. tx_run.
    rewrite Hgate, Hsplit, Hint. cbn.
    do 4 eexists. split; [reflexivity|]. split; [reflexivity|]. cbn.
    unfold find_project, find_phase in *. unfold update. cbn.
    rewrite (find_update (fun r => Project.id r =? p)) by reflexivity.
    rewrite (find_update (fun r => (Phase.project_id r =? p)
                                   && (Phase.phase_number r =? 2)))
      by reflexivity.
    rewrite Hproj, Hph. cbn.
    repeat (split; [reflexivity|]).
    apply in_map_iff. exists gate. now rewrite Hcond.
  - unfold record_approval. tx_run.
    do 2 eexists. split; [reflexivity|]. split; [reflexivity|]. cbn.
    repeat (split; [reflexivity|]).
    unfold update. cbn. apply in_map_iff. exists gate. now rewrite Hcond.
Qed.

Lemma record_approval_gate_2_witness :
  let w := gate_world "Gate 2" in
  let proj := Project.Make 1 "P" "demo" "default" 0 Active
                           1700000000 1700000001 in
  let ph := Phase.Make 3 1 2 "Technical Design" PhasePending None None in
  let gate := Gate.Make 1 1 "Gate 2" MustApprove GatePending ["spec.md"]
                        None 1700000004 None in
  find_project (store w) 1 = Some proj
  /\ find_phase (store w) 1 2 = Some ph
  /\ pending_gate (store w) 1 "Gate 2" gate
  /\ (exists reply w' proj' ph',
        record_approval 1 "Gate 2" true None w = (inr reply, w')
        /\ success reply = true
        /\ find_project (store w') 1 = Some proj'
        /\ Project.current_phase proj' = 2
        /\ find_phase (store w') 1 2 = Some ph'
        /\ Phase.status ph' = PhaseInProgress
        /\ Phase.started_at ph' = Some (clock w (S (S (tick w))))
        /\ In (Gate.resolve Approved None (clock w (tick w)) gate)
              (rows (approval_gates (store w'))))
  /\ (exists reply w',
        record_approval 1 "Gate 2" false None w = (inr reply, w')
        /\ success reply = true
        /\ projects (store w') = projects (store w)
        /\ phases (store w') = phases (store w)
        /\ In (Gate.resolve Rejected None (clock w (tick w)) gate)
              (rows (approval_gates (store w')))).
Proof.
  intros w proj ph gate.
  assert (Hproj : find_project (store w) 1 = Some proj)
    by (vm_compute; reflexivity).
  assert (Hph : find_phase (store w) 1 2 = Some ph)
    by (vm_compute; reflexivity).
  assert (Hgate : pending_gate (store w) 1 "Gate 2" gate)
    by (repeat split; vm_compute; left; reflexivity).
  split; [exact Hproj|]. split; [exact Hph|]. split; [exact Hgate|].
  exact (record_approval_gate_2 w 1 None proj ph gate Hproj Hph Hgate).
Defined.

Lemma no_pending_gate_unmatched (d : db) (p : Z) (g : string) :
  (forall r, ~ pending_gate d p g r) ->
  forall r, In r (rows (approval_gates d)) ->
    (Gate.project_id r =? p) && String.eqb (Gate.gate_name r) g
    && gate_status_eqb (Gate.status r) GatePending = false.
Proof.
  intros Hnone r Hr. apply not_true_is_false. intros Hc.
  apply andb_true_iff in Hc as (Hc & Hs).
  apply andb_true_iff in Hc as (Hp & Hn).
  apply (Hnone r). repeat split; trivial.
  - now apply Z.eqb_eq.
  - now apply String.eqb_eq.
  - now apply gate_status_eqb_eq.
Qed.

Lemma no_pending_gate_by_scan (d : db) (p : Z) (g : string) :
  existsb (fun r => (Gate.project_id r =? p) && String.eqb (Gate.gate_name r) g
                    && gate_status_eqb (Gate.status r) GatePending)
          (rows (approval_gates d)) = false ->
  forall r, ~ pending_gate d p g r.
Proof.
  intros Hscan r (Hin & Hp & Hn & Hs).
  assert (Hex : existsb (fun r => (Gate.project_id r =? p)
                                  && String.eqb (Gate.gate_name r) g
                                  && gate_status_eqb (Gate.status r)
                                                     GatePending)
                        (rows (approval_gates d)) = true).
  { apply existsb_exists. exists r. split; [exact Hin|].
    rewrite !andb_true_iff. repeat split.
    - now apply Z.eqb_eq.
    - now apply String.eqb_eq.
    - now apply gate_status_eqb_eq. }
  congruence.
Qed.

(** The claim of C3 fails on the code: gate "Gate 2" of project 1 has been
    rejected, so none is pending, and still [record_approval] with
    [approved = true] moves the project from phase 0 to phase 2 and starts
    the phase-2 row. *)
Lemma record_approval_resolved_gate_advances_phase :
  let w := resolved_gate_world in
  let w' := snd (record_approval 1 "Gate 2" true None w) in
  (forall r, ~ pending_gate (store w) 1 "Gate 2" r)
  /\ option_map Project.current_phase (find_project (store w) 1) = Some 0
  /\ option_map Project.current_phase (find_project (store w') 1) = Some 2
  /\ option_map Phase.status (find_phase (store w) 1 2) = Some PhasePending
  /\ option_map Phase.status (find_phase (store w') 1 2)
     = Some PhaseInProgress
  /\ store w' <> store w.
Proof.
  intros w w'.
  assert (H0 : option_map Project.current_phase (find_project (store w) 1)
               = Some 0) by (vm_compute; reflexivity).
  assert (H2 : option_map Project.current_phase (find_project (store w') 1)
               = Some 2) by (vm_compute; reflexivity).
  split; [apply no_pending_gate_by_scan; vm_compute; reflexivity|].
  split; [exact H0|]. split; [exact H2|].
  split; [vm_compute; reflexivity|]. split; [vm_compute; reflexivity|].
  intros Heq. rewrite Heq, H0 in H2. discriminate.
Qed.

(** C3, as the code has it.  When no gate of that name is pending for the
    project, [record_approval] resolves nothing: the approval_gates table is
    left as it is, whatever the decision.  With [approved = false], or with
    a name that does not contain "Gate", the call succeeds and its only
    effect on the store is one approval_recorded entry appended to the audit
    log. *)
Theorem record_approval_without_pending_gate (w : world) (p : Z) (g : string)
    (approved : bool) (fb : option string) :
  (forall r, ~ pending_gate (store w) p g r) ->
  approval_gates (store (snd (record_approval p g approved fb w)))
  = approval_gates (store w)
  /\ (approved = false \/ Py.contains "Gate" g = false ->
      exists reply w',
        record_approval p g approved fb w = (inr reply, w')
        /\ success reply = true
        /\ projects (store w') = projects (store w)
        /\ phases (store w') = phases (store w)
        /\ agents (store w') = agents (store w)
        /\ features (store w') = features (store w)
        /\ approval_gates (store w') = approval_gates (store w)
        /\ artifacts (store w') = artifacts (store w)
        /\ dependencies (store w') = dependencies (store w)
        /\ rows (audit_log (store w'))
           = rows (audit_log (store w))
             ++ [Audit.Make (next_rowid (audit_log (store w))) p
                   "approval_recorded" None None
                   (JObj [("gate_name", JStr g); ("approved", JBool approved);
                          ("feedback", json_opt_str fb)])
                   (clock w (S (tick w)))]).
Proof.
  intros Hnone.
  pose proof (no_pending_gate_unmatched _ _ _ Hnone) as Hcond.
  assert (Hsame : forall st ts,
             on_gates
               (update (fun r => (Gate.project_id r =? p)
                                 && String.eqb (Gate.gate_name r) g
                                 && gate_status_eqb (Gate.status r)
                                                    GatePending)
                       (Gate.resolve st fb ts)) (store w) = store w).
  { intros st ts. apply on_gates_same. now apply update_unmatched. }
  assert (Hquiet : (approved && Py.contains "Gate" g)%bool = false ->
            exists reply,
              record_approval p g approved fb w
              = (inr reply,
                 World
                   (on_audit_log
                      (insert (fun i =>
                         Audit.Make i p "approval_recorded" None None
                           (JObj [("gate_name", JStr g);
                                  ("approved", JBool approved);
                                  ("feedback", json_opt_str fb)])
                           (clock w (S (tick w)))))
                      (store w))
                   (clock w) (S (S (tick w))))
              /\ success reply = true).
  { intros Hq. unfold record_approval. tx_run. rewrite Hq, Hsame. cbn.
    eexists. split; reflexivity. }
  split.
  - destruct (approved && Py.contains "Gate" g)%bool eqn:Hq.
    + apply andb_true_iff in Hq as (-> & Hgate).
      unfold record_approval, gate_number_of. tx_run.
      rewrite Hgate, Hsame.
      destruct (Py.split g) as [|first [|tok rest]]; cbn;
        try reflexivity.
      destruct (Py.int_of_str tok) as [n|]; cbn; [|reflexivity].
      destruct (Py.truthy_int n); cbn; [|reflexivity].
      destruct (fits_integer n); cbn; reflexivity.
    + destruct (Hquiet eq_refl) as (reply & -> & _). reflexivity.
  - intros Hcase.
    assert (Hq : (approved && Py.contains "Gate" g)%bool = false).
    { destruct Hcase as [->| ->]; [reflexivity|apply andb_false_r]. }
    destruct (Hquiet Hq) as (reply & -> & Hok).
    do 2 eexists. split; [reflexivity|]. split; [exact Hok|].
    cbn. repeat split.
Qed.

Lemma record_approval_without_pending_gate_witness :
  let w := resolved_gate_world in
  (forall r, ~ pending_gate (store w) 1 "Gate 2" r)
  /\ approval_gates (store (snd (record_approval 1 "Gate 2" false None w)))
     = approval_gates (store w)
  /\ (false = false \/ Py.contains "Gate" "Gate 2" = false ->
      exists reply w',
        record_approval 1 "Gate 2" false None w = (inr reply, w')
        /\ success reply = true
        /\ projects (store w') = projects (store w)
        /\ phases (store w') = phases (store w)
        /\ agents (store w') = agents (store w)
        /\ features (store w') = features (store w)
        /\ approval_gates (store w') = approval_gates (store w)
        /\ artifacts (store w') = artifacts (store w)
        /\ dependencies (store w') = dependencies (store w)
        /\ rows (audit_log (store w'))
           = rows (audit_log (store w))
             ++ [Audit.Make (next_rowid (audit_log (store w))) 1
                   "approval_recorded" None None
                   (JObj [("gate_name", JStr "Gate 2");
                          ("approved", JBool false);
                          ("feedback", json_opt_str None)])
                   (clock w (S (tick w)))]).
Proof.
  intros w.
  assert (Hnone : forall r, ~ pending_gate (store w) 1 "Gate 2" r)
    by (apply no_pending_gate_by_scan; vm_compute; reflexivity).
  split; [exact Hnone|].
  exact (record_approval_without_pending_gate w 1 "Gate 2" false None Hnone).
Defined.

(** * Further properties *)

(** ** Relations that every statement of a method keeps *)

Section Keeps.
Context (R : db -> db -> Prop) `{!PreOrder R}.

Lemma keeps_ret {A : Type} (a : A) : keeps R (ret a).
Proof. intros c. split; reflexivity. Qed.

Lemma keeps_raise {A : Type} (e : exn) : keeps R (@raise A e).
Proof. intros c. split; reflexivity. Qed.

Lemma keeps_query {A : Type} (q : db -> A) : keeps R (query q).
Proof. intros c. split; reflexivity. Qed.

Lemma keeps_now : keeps R datetime_now.
Proof. intros c. split; reflexivity. Qed.

Lemma keeps_execute (stmt : db -> db) :
  (forall d, R d (stmt d)) -> keeps R (execute stmt).
Proof. intros Hstmt c. split; [apply Hstmt|reflexivity]. Qed.

Lemma keeps_bind {A B : Type} (m : Tx A) (k : A -> Tx B) :
  keeps R m -> (forall a, keeps R (k a)) -> keeps R (bind m k).
Proof.
  intros Hm Hk c. unfold bind. specialize (Hm c).
  destruct (m c) as [[e|a] c']; cbn [snd] in *; [exact Hm|].
  destruct (Hk a c') as [Hv Hh]. destruct Hm as [Hv' Hh'].
  split; [now transitivity (view c')|congruence].
Qed.

Lemma keeps_except {A : Type} (body handler : Tx A) :
  keeps R body -> keeps R handler -> keeps R (except_integrity body handler).
Proof.
  intros Hb Hh c. unfold except_integrity. specialize (Hb c).
  destruct (body c) as [[[v| |]|a] c']; cbn [snd] in *; trivial.
  destruct (Hh c') as [Hv Hs]. destruct Hb as [Hv' Hs'].
  split; [now transitivity (view c')|congruence].
Qed.

Lemma keeps_for_each {A S : Type} (items : list A) (body : A -> S -> Tx S) :
  (forall x acc, keeps R (body x acc)) ->
  forall acc, keeps R (for_each items body acc).
Proof.
  intros Hbody. induction items as [|x items IH]; intros acc; cbn.
  - apply keeps_ret.
  - apply keeps_bind; [apply Hbody|exact IH].
Qed.

Lemma keeps_call {A : Type} (m : method A) :
  (forall w, store (snd (m w)) = store w) -> keeps R (call m).
Proof.
  intros Hm c. unfold call. specialize (Hm (host c)).
  destruct (m (host c)) as [r w']. split; [reflexivity|exact Hm].
Qed.

(** Leaving the [with] block commits a state related to the one the
    method found, or restores that state. *)
Lemma get_connection_keeps {A : Type} (body : Tx A) (w : world) :
  keeps R body -> R (store w) (store (snd (get_connection body w))).
Proof.
  intros Hbody. unfold get_connection.
  destruct (Hbody (Conn (store w) w)) as [Hv Hh].
  destruct (body _) as [[e|a] c]; cbn [snd view host store] in *.
  - rewrite Hh. reflexivity.
  - exact Hv.
Qed.

End Keeps.

Lemma can_start_agent_store (p : Z) (a : string) (w : world) :
  store (snd (can_start_agent p a w)) = store w.
Proof. destruct (can_start_agent_reads p a w) as (r & ->). reflexivity. Qed.

Ltac preorder :=
  try match goal with |- PreOrder _ => typeclasses eauto end.

Ltac keep_step stmt :=
  first
    [ apply keeps_ret; preorder
    | apply keeps_raise; preorder
    | apply keeps_query; preorder
    | apply keeps_now; preorder
    | apply keeps_execute; preorder; intros; stmt
    | apply keeps_bind; preorder; [|intros]
    | apply keeps_except; preorder
    | apply keeps_for_each; preorder; intros
    | apply keeps_call; preorder; intros; apply can_start_agent_store
    | match goal with
      | |- keeps _ (match ?x with _ => _ end) => destruct x
      | |- keeps _ (if ?b then _ else _) => destruct b
      end ].

Ltac keep R stmt :=
  apply (get_connection_keeps R);
  unfold log_event, insert_phase, gate_number_of, bind_integer, visit_agent,
    insert_agent;
  repeat keep_step stmt.

Ltac unfold_method :=
  unfold create_project, can_start_agent, mark_agent_complete,
    mark_agent_failed, get_next_agents, add_features, get_next_feature,
    mark_feature_complete, record_feature_retry, request_approval,
    record_approval, get_project_state, list_projects, save_artifact,
    get_artifact, list_artifacts.

Lemma answer_world {A : Type} (wrap : A -> result) (m : method A)
    (w : world) :
  snd (answer wrap m w) = snd (m w).
Proof. unfold answer. now destruct (m w) as [[e|a] w']. Qed.

Lemma answer_raised {A : Type} (wrap : A -> result) (m : method A)
    (w : world) (e : exn) :
  fst (answer wrap m w) = inl e -> fst (m w) = inl e.
Proof.
  unfold answer. destruct (m w) as [[e'|a] w']; cbn; congruence.
Qed.

(** Case analysis on the request, down to the method it is routed to. *)
Ltac by_tool r :=
  unfold serve;
  destruct r as [c| | | | |]; cbn [handle]; rewrite answer_world;
  [destruct c; cbn [route]|..]; unfold_method.

(** ** Invariants of the tool calls *)

#[export] Instance same_graph_preorder : PreOrder same_graph.
Proof.
  split; [intros d; reflexivity|].
  intros a b c Hab Hbc. unfold same_graph in *. congruence.
Qed.

#[export] Instance log_extended_preorder : PreOrder log_extended.
Proof.
  split.
  - intros d. exists []. now rewrite app_nil_r.
  - intros a b c [l1 H1] [l2 H2]. exists (l1 ++ l2).
    now rewrite H2, H1, app_assoc.
Qed.

#[export] Instance phases_kept_preorder : PreOrder phases_kept.
Proof.
  split.
  - intros d p proj Hp. now exists proj.
  - intros a b c Hab Hbc p proj Hp.
    destruct (Hab p proj Hp) as (proj1 & H1 & E1).
    destruct (Hbc p proj1 H1) as (proj2 & H2 & E2).
    exists proj2. split; [exact H2|congruence].
Qed.

#[export] Instance retries_kept_preorder : PreOrder retries_kept.
Proof.
  split.
  - intros d f r Hf. exists r. repeat split; trivial. lia.
  - intros a b c Hab Hbc f r Hf.
    destruct (Hab f r Hf) as (r1 & H1 & L1 & M1 & P1).
    destruct (Hbc f r1 H1) as (r2 & H2 & L2 & M2 & P2).
    exists r2. repeat split; trivial; try congruence. lia.
Qed.

(** X1.  No request changes the dependency graph. *)
Theorem dependency_graph_immutable (r : request) (w : world) :
  dependencies (store (serve r w)) = dependencies (store w).
Proof. by_tool r; keep same_graph ltac:(reflexivity). Qed.

(** X2.  The audit log is append-only: after any request it consists of
    the entries it had, in the same order, followed by the new ones. *)
Theorem audit_log_append_only (r : request) (w : world) :
  exists added,
    rows (audit_log (store (serve r w)))
    = rows (audit_log (store w)) ++ added.
Proof.
  by_tool r;
    keep log_extended
         ltac:(first [ exists []; cbn; now rewrite app_nil_r
                     | eexists; unfold insert; cbn; reflexivity ]).
Qed.

Lemma find_app_found {R : Type} (cond : R -> bool) (l extra : list R) (r : R) :
  find cond l = Some r -> find cond (l ++ extra) = Some r.
Proof.
  induction l as [|x l IH]; cbn; [discriminate|].
  destruct (cond x); [trivial|exact IH].
Qed.

Lemma find_map_same_key {R : Type} (cond : R -> bool) (g : R -> R)
    (l : list R) :
  (forall r, cond (g r) = cond r) ->
  find cond (map g l) = option_map g (find cond l).
Proof.
  intros Hkey. induction l as [|r l IH]; cbn; [reflexivity|].
  rewrite Hkey. destruct (cond r); [reflexivity|exact IH].
Qed.

Lemma phases_kept_same_projects (d d' : db) :
  projects d' = projects d -> phases_kept d d'.
Proof.
  intros Heq p proj Hp. exists proj. unfold find_project in *.
  now rewrite Heq.
Qed.

Lemma phases_kept_insert (mk : Z -> Project.t) (d : db) :
  phases_kept d (on_projects (insert mk) d).
Proof.
  intros p proj Hp. exists proj. split; [|reflexivity].
  unfold find_project in *. cbn. unfold insert. cbn [rows].
  now apply find_app_found.
Qed.

Lemma phases_kept_touch (cond : Project.t -> bool) (ts : timestamp) (d : db) :
  phases_kept d (on_projects (update cond (Project.set_updated_at ts)) d).
Proof.
  intros p proj Hp. unfold find_project in *. cbn. unfold update. cbn [rows].
  rewrite find_map_same_key, Hp by (intros r; now destruct (cond r)).
  cbn. eexists. split; [reflexivity|]. now destruct (cond proj).
Qed.

Ltac phases_stmt :=
  first [ apply phases_kept_same_projects; reflexivity
        | apply phases_kept_insert
        | apply phases_kept_touch ].

(** X3.  Only [record_approval] moves a project to another phase: after
    any other request every project is still found, in the phase it was
    in. *)
Theorem phase_changes_only_by_approval (r : request) (w : world) (p : Z)
    (proj : Project.t) :
  is_record_approval r = false ->
  find_project (store w) p = Some proj ->
  exists proj',
    find_project (store (serve r w)) p = Some proj'
    /\ Project.current_phase proj' = Project.current_phase proj.
Proof.
  intros Hr. revert p proj.
  change (phases_kept (store w) (store (serve r w))).
  by_tool r; try discriminate; keep phases_kept ltac:(phases_stmt).
Qed.

Lemma phase_changes_only_by_approval_witness :
  let r := workflow_tool
             (appforge_mark_agent_complete 1 "input-agent" (JObj [])) in
  let proj := Project.Make 1 "P" "demo" "default" 0 Active
                           1700000000 1700000001 in
  is_record_approval r = false
  /\ find_project (store project_world) 1 = Some proj
  /\ exists proj',
       find_project (store (serve r project_world)) 1 = Some proj'
       /\ Project.current_phase proj' = Project.current_phase proj.
Proof.
  intros r proj.
  assert (Hp : find_project (store project_world) 1 = Some proj)
    by (vm_compute; reflexivity).
  split; [reflexivity|]. split; [exact Hp|].
  exact (phase_changes_only_by_approval r project_world 1 proj eq_refl Hp).
Defined.

Lemma retries_kept_same_features (d d' : db) :
  features d' = features d -> retries_kept d d'.
Proof.
  intros Heq f r Hf. exists r. unfold find_feature in *. rewrite Heq.
  repeat split; trivial. lia.
Qed.

Lemma retries_kept_insert (mk : Z -> Feature.t) (d : db) :
  retries_kept d (on_features (insert mk) d).
Proof.
  intros f r Hf. exists r. unfold find_feature in *. cbn. unfold insert.
  cbn [rows]. repeat split; trivial; [now apply find_app_found|lia].
Qed.

Lemma retries_kept_update (cond : Feature.t -> bool)
    (assign : Feature.t -> Feature.t) (d : db) :
  (forall r, Feature.id (assign r) = Feature.id r
             /\ Feature.retry_count r <= Feature.retry_count (assign r)
             /\ Feature.max_retries (assign r) = Feature.max_retries r
             /\ Feature.project_id (assign r) = Feature.project_id r) ->
  retries_kept d (on_features (update cond assign) d).
Proof.
  intros Hassign f r Hf. unfold find_feature in *. cbn. unfold update.
  cbn [rows]. rewrite find_map_same_key, Hf.
  - cbn. eexists. split; [reflexivity|].
    destruct (cond r); [apply Hassign|repeat split; lia].
  - intros x. destruct (cond x); [|reflexivity].
    now rewrite (proj1 (Hassign x)).
Qed.

Ltac retries_stmt :=
  first [ apply retries_kept_same_features; reflexivity
        | apply retries_kept_insert
        | apply retries_kept_update; intros; cbn; repeat split; lia ].

(** X4.  No request deletes a feature, lowers its retry counter, changes
    its retry bound or moves it to another project. *)
Theorem retry_count_never_decreases (q : request) (w : world) (f : Z)
    (r : Feature.t) :
  find_feature (store w) f = Some r ->
  exists r',
    find_feature (store (serve q w)) f = Some r'
    /\ Feature.retry_count r <= Feature.retry_count r'
    /\ Feature.max_retries r' = Feature.max_retries r
    /\ Feature.project_id r' = Feature.project_id r.
Proof.
  revert f r. change (retries_kept (store w) (store (serve q w))).
  by_tool q; keep retries_kept ltac:(retries_stmt).
Qed.

Lemma retry_count_never_decreases_witness :
  let q := workflow_tool (appforge_record_feature_retry 1 1) in
  let r := Feature.Make 1 2 "login" "" HIGH FeaturePending 0 3 None
                        1700000008 None None in
  find_feature (store two_projects_world) 1 = Some r
  /\ exists r',
       find_feature (store (serve q two_projects_world)) 1 = Some r'
       /\ Feature.retry_count r <= Feature.retry_count r'
       /\ Feature.max_retries r' = Feature.max_retries r
       /\ Feature.project_id r' = Feature.project_id r.
Proof.
  intros q r.
  assert (Hf : find_feature (store two_projects_world) 1 = Some r)
    by (vm_compute; reflexivity).
  split; [exact Hf|].
  exact (retry_count_never_decreases q two_projects_world 1 r Hf).
Defined.

#[export] Instance any_change_preorder : PreOrder any_change.
Proof. split; [intros d|intros a b c _ _]; exact I. Qed.

Lemma get_connection_rollback {A : Type} (body : Tx A) (w : world) (e : exn) :
  keeps any_change body ->
  fst (get_connection body w) = inl e ->
  store (snd (get_connection body w)) = store w.
Proof.
  intros Hbody. unfold get_connection.
  destruct (Hbody (Conn (store w) w)) as [_ Hh].
  destruct (body _) as [[e'|a] c]; cbn [fst snd host store] in *;
    [intros _; exact Hh|discriminate].
Qed.

(** X5.  A request that ends in an exception changes nothing in the
    store: whatever the method had written is rolled back. *)
Theorem failed_call_changes_nothing (r : request) (w : world) (e : exn) :
  fst (handle r w) = inl e -> store (serve r w) = store w.
Proof.
  intros Hfst. revert Hfst. unfold serve.
  destruct r as [c| | | | |]; cbn [handle]; rewrite answer_world;
    intros Hfst; apply answer_raised in Hfst; revert Hfst;
    [destruct c; cbn [route]|..]; unfold_method; intros Hfst;
    apply (get_connection_rollback _ _ e); trivial;
    unfold log_event, insert_phase, gate_number_of, bind_integer,
      visit_agent, insert_agent;
    repeat keep_step ltac:(exact I).
Qed.

Lemma failed_call_changes_nothing_witness :
  let r := workflow_tool
             (appforge_record_approval 1 "Feature Gate" true None) in
  let w := gate_world "Feature Gate" in
  fst (handle r w) = inl (ValueError "Gate")
  /\ store (serve r w) = store w.
Proof.
  intros r w.
  assert (Hrun : fst (handle r w) = inl (ValueError "Gate"))
    by (vm_compute; reflexivity).
  split; [exact Hrun|].
  exact (failed_call_changes_nothing r w _ Hrun).
Defined.

(** ** The feature backlog, continued *)

Lemma find_feature_retried (d : db) (f : Z) :
  find_feature (on_features
                  (update (fun r => Feature.id r =? f) Feature.retry) d) f
  = option_map Feature.retry (find_feature d f).
Proof.
  unfold find_feature. cbn. unfold update. cbn [rows].
  now rewrite find_update.
Qed.

Lemma record_feature_retry_run (w : world) (p f : Z) (r : Feature.t) :
  find_feature (store w) f = Some r ->
  record_feature_retry p f w
  = (inr (FeatureRetried
            (RetryInfo (Feature.retry_count r + 1)
               (Feature.max_retries r - (Feature.retry_count r + 1))
               (Feature.max_retries r - (Feature.retry_count r + 1) <=? 0)
               (fstr [mark_warn; " Retry ";
                      Py.str_of_int (Feature.retry_count r + 1); "/";
                      Py.str_of_int (Feature.max_retries r); " for ";
                      Feature.feature_name r]))),
     World
       (on_audit_log
          (insert (fun i =>
             Audit.Make i p "feature_retry" None None
               (JObj [("feature_id", JInt f);
                      ("feature_name", JStr (Feature.feature_name r));
                      ("retry_count", JInt (Feature.retry_count r + 1));
                      ("retries_left",
                       JInt (Feature.max_retries r
                             - (Feature.retry_count r + 1)))])
               (clock w (tick w))))
          (on_features (update (fun x => Feature.id x =? f) Feature.retry)
                       (store w)))
       (clock w) (S (tick w))).
Proof.
  intros Hf. unfold record_feature_retry. tx_run. rewrite fetchone_select.
  pose proof (find_feature_retried (store w) f) as Hfind.
  unfold find_feature in Hfind, Hf. cbn in Hfind. rewrite Hfind, Hf.
  reflexivity.
Qed.

(** X6.  [record_feature_retry] on an existing feature adds exactly one to
    its retry counter, reports the new counter, the retries left
    ([max_retries] minus the new counter) and whether none are left, and
    leaves the feature's status as it was. *)
Theorem record_feature_retry_counts (w : world) (p f : Z) (r : Feature.t) :
  find_feature (store w) f = Some r ->
  exists info w' r',
    record_feature_retry p f w = (inr (FeatureRetried info), w')
    /\ retry_count info = Feature.retry_count r + 1
    /\ retries_left info = Feature.max_retries r - retry_count info
    /\ (max_retries_reached info = true
        <-> Feature.max_retries r <= retry_count info)
    /\ find_feature (store w') f = Some r'
    /\ Feature.retry_count r' = Feature.retry_count r + 1
    /\ Feature.status r' = Feature.status r.
Proof.
  intros Hf. rewrite (record_feature_retry_run w p f r Hf).
  do 3 eexists. split; [reflexivity|]. cbn.
  split; [reflexivity|]. split; [reflexivity|].
  split; [rewrite Z.leb_le; lia|].
  change (find_feature (on_audit_log ?g ?d) f) with (find_feature d f).
  rewrite find_feature_retried, Hf. cbn. repeat split.
Qed.

Lemma record_feature_retry_counts_witness :
  let w := two_projects_world in
  let r := Feature.Make 1 2 "login" "" HIGH FeaturePending 0 3 None
                        1700000008 None None in
  find_feature (store w) 1 = Some r
  /\ exists info w' r',
       record_feature_retry 2 1 w = (inr (FeatureRetried info), w')
       /\ retry_count info = Feature.retry_count r + 1
       /\ retries_left info = Feature.max_retries r - retry_count info
       /\ (max_retries_reached info = true
           <-> Feature.max_retries r <= retry_count info)
       /\ find_feature (store w') 1 = Some r'
       /\ Feature.retry_count r' = Feature.retry_count r + 1
       /\ Feature.status r' = Feature.status r.
Proof.
  intros w r.
  assert (Hf : find_feature (store w) 1 = Some r)
    by (vm_compute; reflexivity).
  split; [exact Hf|].
  exact (record_feature_retry_counts w 2 1 r Hf).
Defined.

(** X7.  Retries accumulate and never resolve a feature: after [n]
    successive calls the counter has grown by [n], also beyond
    [max_retries], and the status is still the one the feature had. *)
Theorem repeated_retries_accumulate (n : nat) (w : world) (p f : Z)
    (r : Feature.t) :
  find_feature (store w) f = Some r ->
  exists r',
    find_feature (store (repeat_call n (record_feature_retry p f) w)) f
    = Some r'
    /\ Feature.retry_count r' = Feature.retry_count r + Z.of_nat n
    /\ Feature.max_retries r' = Feature.max_retries r
    /\ Feature.status r' = Feature.status r.
Proof.
  revert w r. induction n as [|n IH]; intros w r Hf.
  - exists r. cbn. repeat split; trivial. lia.
  - cbn [repeat_call].
    rewrite (record_feature_retry_run w p f r Hf). cbn [snd].
    destruct (IH (World
                    (on_audit_log
                       (insert (fun i =>
                          Audit.Make i p "feature_retry" None None
                            (JObj [("feature_id", JInt f);
                                   ("feature_name",
                                    JStr (Feature.feature_name r));
                                   ("retry_count",
                                    JInt (Feature.retry_count r + 1));
                                   ("retries_left",
                                    JInt (Feature.max_retries r
                                          - (Feature.retry_count r + 1)))])
                            (clock w (tick w))))
                       (on_features
                          (update (fun x => Feature.id x =? f) Feature.retry)
                          (store w)))
                    (clock w) (S (tick w)))
                 (Feature.retry r)) as (r' & Hr' & Hc & Hm & Hs).
    + cbn [store].
      change (find_feature (on_audit_log ?g ?d) f) with (find_feature d f).
      now rewrite find_feature_retried, Hf.
    + exists r'. split; [exact Hr'|]. cbn in Hc, Hm, Hs.
      repeat split; trivial. lia.
Qed.

Lemma repeated_retries_accumulate_witness :
  let w := two_projects_world in
  let r := Feature.Make 1 2 "login" "" HIGH FeaturePending 0 3 None
                        1700000008 None None in
  find_feature (store w) 1 = Some r
  /\ exists r',
       find_feature (store (repeat_call 5 (record_feature_retry 2 1) w)) 1
       = Some r'
       /\ Feature.retry_count r' = Feature.retry_count r + Z.of_nat 5
       /\ Feature.max_retries r' = Feature.max_retries r
       /\ Feature.status r' = Feature.status r.
Proof.
  intros w r.
  assert (Hf : find_feature (store w) 1 = Some r)
    by (vm_compute; reflexivity).
  split; [exact Hf|].
  exact (repeated_retries_accumulate 5 w 2 1 r Hf).
Defined.

(** X8.  Once [mark_feature_complete] has run for an id, the pending
    features are those that were pending and have another id; in
    particular [get_next_feature] does not return that feature again. *)
Theorem completed_feature_leaves_backlog (w : world) (p f : Z) :
  let w' := snd (mark_feature_complete p f w) in
  (forall q g,
      pending_feature (store w') q g
      <-> pending_feature (store w) q g /\ Feature.id g <> f)
  /\ (forall q g w'',
        get_next_feature q w' = (inr (NextFeature g), w'') ->
        Feature.id g <> f).
Proof.
  intros w'.
  assert (Hrows : rows (features (store w'))
                  = map (fun r => if Feature.id r =? f
                                  then Feature.complete (clock w (tick w)) r
                                  else r)
                        (rows (features (store w)))).
  { subst w'. unfold mark_feature_complete. tx_run. reflexivity. }
  assert (Hpending : forall q g,
             pending_feature (store w') q g
             <-> pending_feature (store w) q g /\ Feature.id g <> f).
  { intros q g. unfold pending_feature. rewrite Hrows, in_map_iff. split.
    - intros ((g0 & Hg0 & Hin) & Hq & Hst).
      destruct (Z.eqb_spec (Feature.id g0) f) as [Heq|Hne].
      + subst g. discriminate.
      + subst g. tauto.
    - intros ((Hin & Hq & Hst) & Hne). split; [|tauto].
      exists g. apply Z.eqb_neq in Hne. now rewrite Hne. }
  split; [exact Hpending|].
  intros q g w'' Hnext.
  unfold get_next_feature, get_connection, bind, query, ret in Hnext.
  cbn [view host] in Hnext. unfold fetchone in Hnext.
  rewrite firstn_1_head in Hnext.
  destruct (hd_error _) as [g'|] eqn:Hhd; [|discriminate].
  injection Hnext as -> _.
  apply (order_by_head by_rank_then_id by_rank_then_id_total
           by_rank_then_id_trans) in Hhd as [Hin _].
  apply pending_feature_select, Hpending in Hin. tauto.
Qed.

Lemma add_features_loop (p : Z) (fs : list feature_input) :
  Forall valid_priority fs ->
  forall c, exists added c',
    for_each fs
      (fun feature _ =>
         created <- datetime_now ;;
         match priority_of_string (get_or (input_priority feature) "MEDIUM")
         with
         | None => raise (IntegrityError (CheckFailed "features" "priority"))
         | Some prio =>
             execute (on_features
               (insert (fun i =>
                  Feature.Make i p (input_name feature)
                    (get_or (input_description feature) "") prio
                    FeaturePending 0 3 None created None None)))
         end) tt c
    = (inr tt, c')
    /\ rows (features (view c')) = rows (features (view c)) ++ added
    /\ Forall2 (added_as p) fs added
    /\ audit_log (view c') = audit_log (view c).
Proof.
  induction 1 as [|input fs Hvalid _ IH]; intros c.
  - exists [], c. cbn. rewrite app_nil_r. repeat split. constructor.
  - cbn [for_each]. unfold bind at 1. unfold bind at 1.
    unfold datetime_now at 1. cbn [host view].
    unfold valid_priority in Hvalid.
    destruct (priority_of_string _) as [prio|] eqn:Hprio; [|congruence].
    unfold execute at 1. cbn [host view].
    match goal with
    | |- context [for_each fs ?body tt ?c1] =>
        destruct (IH c1) as (added & c' & Hrun & Hrows & Hall & Hlog)
    end.
    rewrite Hrun. cbn in Hrows, Hlog. unfold insert in Hrows.
    cbn [rows] in Hrows. rewrite <- app_assoc in Hrows.
    eexists. exists c'. split; [reflexivity|]. split; [exact Hrows|].
    split; [|exact Hlog].
    constructor; [|exact Hall]. repeat split. cbn. exact Hprio.
Qed.

(** X9.  [add_features] with inputs whose priority, where given, is HIGH,
    MEDIUM or LOW appends one backlog row per input, in the order of the
    inputs: pending, with retry counter 0, retry bound 3, priority MEDIUM
    and an empty description where the input gives none; it reports their
    number and logs one features_added entry. *)
Theorem add_features_appends (w : world) (p : Z) (fs : list feature_input) :
  Forall valid_priority fs ->
  exists message w' added entry,
    add_features p fs w
    = (inr (FeaturesAdded (Z.of_nat (List.length fs)) message), w')
    /\ rows (features (store w')) = rows (features (store w)) ++ added
    /\ Forall2 (added_as p) fs added
    /\ rows (audit_log (store w')) = rows (audit_log (store w)) ++ [entry]
    /\ Audit.event_type entry = "features_added"
    /\ Audit.project_id entry = p.
Proof.
  intros Hvalid. unfold add_features, get_connection.
  unfold bind at 1.
  destruct (add_features_loop p fs Hvalid (Conn (store w) w))
    as (added & c' & Hrun & Hrows & Hall & Hlog).
  rewrite Hrun. cbn [view] in Hrows, Hlog. unfold log_event. tx_run.
  do 4 eexists. split; [reflexivity|]. cbn.
  split; [exact Hrows|]. split; [exact Hall|].
  unfold insert. cbn [rows]. rewrite Hlog. repeat split.
Qed.

Lemma add_features_appends_witness :
  let fs := [FeatureInput "login" (Some "sign in") (Some "HIGH");
             FeatureInput "export" None None] in
  Forall valid_priority fs
  /\ exists message w' added entry,
       add_features 1 fs project_world
       = (inr (FeaturesAdded (Z.of_nat (List.length fs)) message), w')
       /\ rows (features (store w'))
          = rows (features (store project_world)) ++ added
       /\ Forall2 (added_as 1) fs added
       /\ rows (audit_log (store w'))
          = rows (audit_log (store project_world)) ++ [entry]
       /\ Audit.event_type entry = "features_added"
       /\ Audit.project_id entry = 1.
Proof.
  intros fs.
  assert (Hvalid : Forall valid_priority fs)
    by (repeat constructor; discriminate).
  split; [exact Hvalid|].
  exact (add_features_appends project_world 1 fs Hvalid).
Defined.

Lemma add_features_loop_fails (p : Z) (fs : list feature_input) :
  Exists (fun input => ~ valid_priority input) fs ->
  forall c, exists c',
    for_each fs
      (fun feature _ =>
         created <- datetime_now ;;
         match priority_of_string (get_or (input_priority feature) "MEDIUM")
         with
         | None => raise (IntegrityError (CheckFailed "features" "priority"))
         | Some prio =>
             execute (on_features
               (insert (fun i =>
                  Feature.Make i p (input_name feature)
                    (get_or (input_description feature) "") prio
                    FeaturePending 0 3 None created None None)))
         end) tt c
    = (inl (IntegrityError (CheckFailed "features" "priority")), c')
    /\ store (host c') = store (host c).
Proof.
  intros Hbad. induction fs as [|input fs IH]; intros c.
  - inversion Hbad.
  - cbn [for_each]. unfold bind at 1. unfold bind at 1.
    unfold datetime_now at 1. cbn [host view].
    destruct (priority_of_string _) as [prio|] eqn:Hprio.
    + assert (Hrest : Exists (fun i => ~ valid_priority i) fs).
      { inversion Hbad as [? ? Hhead|]; subst; [|assumption].
        exfalso. apply Hhead. unfold valid_priority. congruence. }
      unfold execute at 1. cbn [host view].
      match goal with
      | |- context [for_each fs ?body tt ?c1] =>
          destruct (IH Hrest c1) as (c' & Hrun & Hstore)
      end.
      rewrite Hrun. exists c'. split; [reflexivity|exact Hstore].
    + unfold raise. eexists. split; reflexivity.
Qed.

(** X10.  [add_features] adds all of its inputs or none: if one input has
    a priority other than HIGH, MEDIUM or LOW, the CHECK constraint fails,
    the call raises and the store is left as it was, the rows of the
    inputs before the bad one included. *)
Theorem add_features_all_or_nothing (w : world) (p : Z)
    (fs : list feature_input) :
  Exists (fun input => ~ valid_priority input) fs ->
  exists w',
    add_features p fs w
    = (inl (IntegrityError (CheckFailed "features" "priority")), w')
    /\ store w' = store w.
Proof.
  intros Hbad. unfold add_features, get_connection. unfold bind at 1.
  destruct (add_features_loop_fails p fs Hbad (Conn (store w) w))
    as (c' & Hrun & Hstore).
  rewrite Hrun. eexists. split; [reflexivity|exact Hstore].
Qed.

Lemma add_features_all_or_nothing_witness :
  let fs := [FeatureInput "login" None (Some "HIGH");
             FeatureInput "export" None (Some "urgent")] in
  Exists (fun input => ~ valid_priority input) fs
  /\ exists w',
       add_features 1 fs project_world
       = (inl (IntegrityError (CheckFailed "features" "priority")), w')
       /\ store w' = store project_world.
Proof.
  intros fs.
  assert (Hbad : Exists (fun input => ~ valid_priority input) fs).
  { apply Exists_cons_tl, Exists_cons_hd. intros Hv. now apply Hv. }
  split; [exact Hbad|].
  exact (add_features_all_or_nothing project_world 1 fs Hbad).
Defined.

(** ** Projects *)

Lemma existsb_insert {R : Type} `{Row R} (f : R -> bool) (mk : Z -> R)
    (t : table R) :
  existsb f (rows (insert mk t))
  = existsb f (rows t) || f (mk (next_rowid t)).
Proof.
  unfold insert. cbn [rows]. rewrite existsb_app. cbn.
  now rewrite orb_false_r.
Qed.

Lemma insert_phase_run (c : conn) (id k : Z) (name : string) :
  existsb (fun r => (Phase.project_id r =? id) && (Phase.phase_number r =? k))
          (rows (phases (view c))) = false ->
  insert_phase id k name c
  = (inr tt,
     Conn (on_phases
             (insert (fun i => Phase.Make i id k name PhasePending None None))
             (view c))
          (host c)).
Proof.
  intros Hclear. unfold insert_phase, bind, query, execute.
  cbn [view host]. now rewrite Hclear.
Qed.

Lemma find_app_skip {R : Type} (cond : R -> bool) (l extra : list R) :
  (forall r, In r l -> cond r = false) ->
  find cond (l ++ extra) = find cond extra.
Proof.
  intros Hl. induction l as [|x l IH]; cbn; [reflexivity|].
  rewrite (Hl x (or_introl eq_refl)). apply IH. intros. apply Hl. now right.
Qed.

Lemma next_rowid_fresh {R : Type} `{Row R} (t : table R) (r : R) :
  In r (rows t) -> (rowid r =? next_rowid t) = false.
Proof.
  intros Hin. apply max_rowid_bound in Hin. apply Z.eqb_neq.
  unfold next_rowid. lia.
Qed.

(** X11.  [create_project] with a name no project has, in a store with no
    phase row for the id the project receives, inserts the project in
    phase 0 with status active and one row for each of the seven phases:
    phase 0 is in progress, phases 1 to 6 are pending. *)
Theorem create_project_initialises (w : world)
    (name description tech_stack : string) :
  (forall r, In r (rows (projects (store w))) -> Project.name r <> name) ->
  (forall r, In r (rows (phases (store w))) ->
             Phase.project_id r <> next_rowid (projects (store w))) ->
  exists message w' proj,
    create_project name description tech_stack w
    = (inr (ProjectCreated (next_rowid (projects (store w))) name message),
       w')
    /\ find_project (store w') (next_rowid (projects (store w))) = Some proj
    /\ Project.name proj = name
    /\ Project.current_phase proj = 0
    /\ Project.status proj = Active
    /\ forall n phase_name,
         In (n, phase_name) PHASE_NAMES ->
         exists ph,
           find_phase (store w') (next_rowid (projects (store w))) n
           = Some ph
           /\ Phase.phase_name ph = phase_name
           /\ Phase.status ph
              = (if n =? 0 then PhaseInProgress else PhasePending).
Proof.
  intros Hname Hphase.
  assert (Hfree : existsb (fun r => String.eqb (Project.name r) name)
                          (rows (projects (store w))) = false).
  { apply not_true_is_false. intros Hex.
    apply existsb_exists in Hex as (r & Hr & Heq).
    apply String.eqb_eq in Heq. now apply (Hname r). }
  assert (Hother : forall r, In r (rows (phases (store w))) ->
             (Phase.project_id r =? next_rowid (projects (store w)))
             = false).
  { intros r Hr. apply Z.eqb_neq. now apply Hphase. }
  assert (Hclash : forall k,
             existsb (fun r => (Phase.project_id r
                                =? next_rowid (projects (store w)))
                               && (Phase.phase_number r =? k))
                     (rows (phases (store w))) = false).
  { intros k. apply not_true_is_false. intros Hex.
    apply existsb_exists in Hex as (r & Hr & Heq).
    apply andb_true_iff in Heq as [Heq _]. now rewrite Hother in Heq. }
  unfold create_project, get_connection, except_integrity.
  unfold bind at 1. unfold datetime_now at 1. cbn [view host].
  unfold bind at 1. unfold datetime_now at 1. cbn [view host clock tick].
  unfold bind at 1. unfold query at 1. cbn [view]. rewrite Hfree.
  unfold bind at 1. unfold bind at 1. unfold execute at 1. cbn [view host].
  unfold bind at 1. unfold query at 1. cbn [view].
  change (seq (projects (on_projects (insert ?mk) (store w))))
    with (next_rowid (projects (store w))).
  set (id := next_rowid (projects (store w))) in *.
  unfold bind at 1. cbn [for_each PHASE_NAMES].
  repeat (unfold bind at 1;
          rewrite insert_phase_run
            by (cbn; rewrite ?existsb_insert, Hclash; cbn;
                rewrite ?andb_false_r; reflexivity)).
  unfold ret at 1. tx_run.
  do 3 eexists. split; [reflexivity|]. cbn.
  unfold find_project, find_phase. cbn. unfold update, insert. cbn [rows].
  rewrite find_app_skip
    by (intros r Hr; unfold id;
        now apply (@next_rowid_fresh _ project_row)).
  cbn. fold id. rewrite Z.eqb_refl.
  split; [reflexivity|]. cbn [Project.name Project.current_phase
                               Project.status].
  repeat (split; [reflexivity|]).
  intros n phase_name Hin.
  rewrite <- !app_assoc, map_app. cbn [app map].
  rewrite find_app_skip.
  2:{ intros r Hr. apply in_map_iff in Hr as (r0 & <- & Hr0).
      specialize (Hother r0 Hr0). fold id in Hother.
      rewrite Hother. cbn. now rewrite Hother. }
  cbn. rewrite !Z.eqb_refl. cbn.
  repeat (destruct Hin as [Hin|Hin];
          [injection Hin as <- <-; cbn; eexists;
           split; [reflexivity|split; reflexivity]|]).
  destruct Hin.
Qed.

Lemma create_project_initialises_witness :
  let w := fresh_world in
  (forall r, In r (rows (projects (store w))) -> Project.name r <> "P")
  /\ (forall r, In r (rows (phases (store w))) ->
                Phase.project_id r <> next_rowid (projects (store w)))
  /\ exists message w' proj,
       create_project "P" "demo" "default" w
       = (inr (ProjectCreated (next_rowid (projects (store w))) "P" message),
          w')
       /\ find_project (store w') (next_rowid (projects (store w)))
          = Some proj
       /\ Project.name proj = "P"
       /\ Project.current_phase proj = 0
       /\ Project.status proj = Active
       /\ forall n phase_name,
            In (n, phase_name) PHASE_NAMES ->
            exists ph,
              find_phase (store w') (next_rowid (projects (store w))) n
              = Some ph
              /\ Phase.phase_name ph = phase_name
              /\ Phase.status ph
                 = (if n =? 0 then PhaseInProgress else PhasePending).
Proof.
  intros w.
  assert (H1 : forall r, In r (rows (projects (store w))) ->
                         Project.name r <> "P")
    by (intros r Hr; destruct Hr).
  assert (H2 : forall r, In r (rows (phases (store w))) ->
                         Phase.project_id r <> next_rowid (projects (store w)))
    by (intros r Hr; destruct Hr).
  split; [exact H1|]. split; [exact H2|].
  exact (create_project_initialises w "P" "demo" "default" H1 H2).
Defined.

(** X12.  [create_project] with a name that a project already has creates
    nothing: it answers that the project already exists and the store is
    left as it was. *)
Theorem create_project_rejects_duplicate (w : world)
    (name description tech_stack : string) (r : Project.t) :
  In r (rows (projects (store w))) ->
  Project.name r = name ->
  exists w',
    create_project name description tech_stack w
    = (inr (Failure (fstr ["Project '"; name; "' already exists"])), w')
    /\ store w' = store w.
Proof.
  intros Hr Hname.
  assert (Htaken : existsb (fun x => String.eqb (Project.name x) name)
                           (rows (projects (store w))) = true).
  { apply existsb_exists. exists r. split; [exact Hr|].
    now apply String.eqb_eq. }
  unfold create_project. tx_run. rewrite Htaken. cbn.
  eexists. split; reflexivity.
Qed.

Lemma create_project_rejects_duplicate_witness :
  let r := Project.Make 1 "P" "demo" "default" 0 Active
                        1700000000 1700000001 in
  In r (rows (projects (store project_world)))
  /\ Project.name r = "P"
  /\ exists w',
       create_project "P" "again" "default" project_world
       = (inr (Failure (fstr ["Project '"; "P"; "' already exists"])), w')
       /\ store w' = store project_world.
Proof.
  intros r.
  assert (Hr : In r (rows (projects (store project_world))))
    by (vm_compute; left; reflexivity).
  split; [exact Hr|]. split; [reflexivity|].
  exact (create_project_rejects_duplicate project_world "P" "again"
           "default" r Hr eq_refl).
Defined.

(** ** Approval gates, continued *)

(** X13.  [request_approval] with one of the three gate types inserts a
    pending gate under a new id and returns that id; with any other gate
    type the CHECK constraint fails, the call raises and the store is left
    as it was. *)
Theorem request_approval_outcome (w : world) (p : Z) (g k : string)
    (arts : list string) :
  match gate_type_of_string k with
  | Some kind =>
      exists message w',
        request_approval p g k arts w
        = (inr (ApprovalRequested (next_rowid (approval_gates (store w)))
                  g k message), w')
        /\ rows (approval_gates (store w'))
           = rows (approval_gates (store w))
             ++ [Gate.Make (next_rowid (approval_gates (store w))) p g kind
                   GatePending arts None (clock w (tick w)) None]
        /\ pending_gate (store w') p g
             (Gate.Make (next_rowid (approval_gates (store w))) p g kind
                GatePending arts None (clock w (tick w)) None)
  | None =>
      exists w',
        request_approval p g k arts w
        = (inl (IntegrityError (CheckFailed "approval_gates" "gate_type")),
           w')
        /\ store w' = store w
  end.
Proof.
  unfold request_approval. tx_run.
  destruct (gate_type_of_string k) as [kind|]; cbn.
  - do 2 eexists. split; [reflexivity|]. cbn. unfold insert. cbn [rows].
    split; [reflexivity|]. unfold pending_gate. cbn.
    repeat split. apply in_or_app. right. now left.
  - eexists. split; reflexivity.
Qed.

Lemma record_approval_gates (w w' : world) (p : Z) (g : string) (ok : bool)
    (fb : option string) (reply : reply) :
  record_approval p g ok fb w = (inr reply, w') ->
  approval_gates (store w')
  = update (fun r => (Gate.project_id r =? p)
                     && String.eqb (Gate.gate_name r) g
                     && gate_status_eqb (Gate.status r) GatePending)
           (Gate.resolve (if ok then Approved else Rejected) fb
                         (clock w (tick w)))
           (approval_gates (store w)).
Proof.
  unfold record_approval, gate_number_of. tx_run.
  destruct (ok && Py.contains "Gate" g)%bool; cbn.
  - destruct (Py.split g) as [|first [|tok rest]]; cbn;
      try (intros H; injection H as _ <-; reflexivity).
    destruct (Py.int_of_str tok) as [n|]; cbn; [|discriminate].
    destruct (Py.truthy_int n); cbn;
      [|intros H; injection H as _ <-; reflexivity].
    destruct (fits_integer n); cbn; [|discriminate].
    intros H; injection H as _ <-; reflexivity.
  - intros H; injection H as _ <-; reflexivity.
Qed.

(** X14.  When [record_approval] returns, no gate of that name is pending
    for the project any more: each one that was pending carries the
    decision, the feedback and the time of the call, and every other gate
    row, a gate resolved earlier included, is as it was. *)
Theorem record_approval_resolves (w : world) (p : Z) (g : string)
    (ok : bool) (fb : option string) :
  returns (fst (record_approval p g ok fb w)) = true ->
  (forall r, ~ pending_gate (store (snd (record_approval p g ok fb w))) p g r)
  /\ (forall r, pending_gate (store w) p g r ->
        In (Gate.resolve (if ok then Approved else Rejected) fb
                         (clock w (tick w)) r)
           (rows (approval_gates
                    (store (snd (record_approval p g ok fb w))))))
  /\ (forall r, In r (rows (approval_gates (store w))) ->
        ~ pending_gate (store w) p g r ->
        In r (rows (approval_gates
                      (store (snd (record_approval p g ok fb w)))))).
Proof.
  intros Hret.
  destruct (record_approval p g ok fb w) as [[e|reply] w'] eqn:Hrun;
    [discriminate|]. clear Hret. cbn [snd].
  apply record_approval_gates in Hrun.
  unfold pending_gate. rewrite Hrun. unfold update. cbn [rows].
  set (cond := fun r => (Gate.project_id r =? p)
                        && String.eqb (Gate.gate_name r) g
                        && gate_status_eqb (Gate.status r) GatePending).
  assert (Hcond : forall r, cond r = true <->
            Gate.project_id r = p /\ Gate.gate_name r = g
            /\ Gate.status r = GatePending).
  { intros r. unfold cond.
    rewrite !andb_true_iff, Z.eqb_eq, String.eqb_eq, gate_status_eqb_eq.
    tauto. }
  split; [|split].
  - intros r (Hin & Hp & Hn & Hs). apply in_map_iff in Hin as (r0 & Hr0 & _).
    cbv beta in Hr0. destruct (cond r0) eqn:Hc;
      pose proof Hc as Hc'; unfold cond in Hc'; rewrite Hc' in Hr0.
    + rewrite <- Hr0 in Hs. cbn in Hs. destruct ok; discriminate Hs.
    + subst r0. assert (cond r = true) by (apply Hcond; tauto). congruence.
  - intros r (Hin & Hrest). apply in_map_iff. exists r.
    pose proof (proj2 (Hcond r) Hrest) as Hc. unfold cond in Hc.
    rewrite Hc. now split.
  - intros r Hin Hnot. apply in_map_iff. exists r. split; [|exact Hin].
    destruct (cond r) eqn:Hc; pose proof Hc as Hc'; unfold cond in Hc';
      rewrite Hc'; [|reflexivity].
    exfalso. apply Hnot. split; [exact Hin|]. now apply Hcond.
Qed.

Lemma record_approval_resolves_witness :
  returns (fst (record_approval 1 "Gate 2" false (Some "not yet")
                  (gate_world "Gate 2"))) = true
  /\ (forall r,
        ~ pending_gate
            (store (snd (record_approval 1 "Gate 2" false (Some "not yet")
                           (gate_world "Gate 2")))) 1 "Gate 2" r)
  /\ (forall r, pending_gate (store (gate_world "Gate 2")) 1 "Gate 2" r ->
        In (Gate.resolve (if false then Approved else Rejected)
                         (Some "not yet")
                         (clock (gate_world "Gate 2")
                                (tick (gate_world "Gate 2"))) r)
           (rows (approval_gates
                    (store (snd (record_approval 1 "Gate 2" false
                                   (Some "not yet")
                                   (gate_world "Gate 2")))))))
  /\ (forall r, In r (rows (approval_gates (store (gate_world "Gate 2")))) ->
        ~ pending_gate (store (gate_world "Gate 2")) 1 "Gate 2" r ->
        In r (rows (approval_gates
                      (store (snd (record_approval 1 "Gate 2" false
                                     (Some "not yet")
                                     (gate_world "Gate 2"))))))).
Proof.
  assert (Hret : returns (fst (record_approval 1 "Gate 2" false
                                 (Some "not yet") (gate_world "Gate 2")))
                 = true) by (vm_compute; reflexivity).
  split; [exact Hret|].
  exact (record_approval_resolves (gate_world "Gate 2") 1 "Gate 2" false
           (Some "not yet") Hret).
Defined.







(** ** Agents, continued *)

Lemma unknown_agent_refusal (w : world) (p : Z) (a : string) (art : json) :
  find_dependency (store w) a = None ->
  can_start_agent p a w = (inr (Failure (fstr ["Unknown agent: "; a])), w)
  /\ mark_agent_complete p a art w
     = (inr (Failure (fstr ["Unknown agent: "; a])), w).
Proof.
  intros Hdep. unfold find_dependency in Hdep.
  unfold can_start_agent, mark_agent_complete. tx_run.
  rewrite fetchone_select, Hdep. cbn. now rewrite world_eta.
Qed.

(** X18.  For an agent name that the dependency graph does not have,
    [can_start_agent] and [mark_agent_complete] both answer "Unknown
    agent" and change nothing. *)
Theorem unknown_agent_is_refused (w : world) (p : Z) (a : string)
    (art : json) :
  find_dependency (store w) a = None ->
  can_start_agent p a w = (inr (Failure (fstr ["Unknown agent: "; a])), w)
  /\ mark_agent_complete p a art w
     = (inr (Failure (fstr ["Unknown agent: "; a])), w).
Proof. apply unknown_agent_refusal. Qed.

Lemma unknown_agent_is_refused_witness :
  find_dependency (store project_world) "tester" = None
  /\ can_start_agent 1 "tester" project_world
     = (inr (Failure (fstr ["Unknown agent: "; "tester"])), project_world)
  /\ mark_agent_complete 1 "tester" (JObj []) project_world
     = (inr (Failure (fstr ["Unknown agent: "; "tester"])), project_world).
Proof.
  assert (Hdep : find_dependency (store project_world) "tester" = None)
    by (vm_compute; reflexivity).
  split; [exact Hdep|].
  exact (unknown_agent_is_refused project_world 1 "tester" (JObj []) Hdep).
Defined.

(** What [mark_agent_complete] does to the tables the readiness check
    reads. *)
Lemma mark_agent_complete_effect (w : world) (p : Z) (a : string)
    (art : json) (dep : Dep.t) :
  find_dependency (store w) a = Some dep ->
  exists message w',
    mark_agent_complete p a art w
    = (inr (AgentCompleted message (Dep.phase_number dep)), w')
    /\ dependencies (store w') = dependencies (store w)
    /\ projects (store w')
       = update (fun r => Project.id r =? p)
                (Project.set_updated_at (clock w (S (tick w))))
                (projects (store w))
    /\ agents (store w')
       = match hd_error (open_runs (store w) p a) with
         | Some found =>
             update (fun r => Agent.id r =? Agent.id found)
                    (Agent.complete art (clock w (tick w)))
                    (agents (store w))
         | None =>
             insert (fun i =>
                       Agent.Make i p a (Dep.phase_number dep) AgentComplete
                                  (Some art) None None
                                  (Some (clock w (tick w))))
                    (agents (store w))
         end.
Proof.
  intros Hdep. unfold find_dependency in Hdep.
  unfold mark_agent_complete. tx_run. rewrite fetchone_select, Hdep. cbn.
  unfold fetchone, select. fold (open_runs (store w) p a).
  destruct (hd_error (open_runs (store w) p a)) as [found|]; cbn;
    do 2 eexists; (split; [reflexivity|]); repeat split.
Qed.

Lemma complete_record_survives (w : world) (p q : Z) (a b : string)
    (art : json) :
  has_complete_record (store w) q b ->
  has_complete_record (store (snd (mark_agent_complete p a art w))) q b.
Proof.
  intros (r & Hr & Hq & Hb & Hs).
  destruct (find_dependency (store w) a) as [dep|] eqn:Hdep.
  - destruct (mark_agent_complete_effect w p a art dep Hdep)
      as (m & w' & -> & _ & _ & Hagents).
    cbn [snd]. unfold has_complete_record. rewrite Hagents.
    destruct (hd_error _) as [found|].
    + unfold update. cbn [rows].
      exists (if Agent.id r =? Agent.id found
              then Agent.complete art (clock w (tick w)) r else r).
      split; [apply in_map_iff; now exists r|].
      destruct (Agent.id r =? Agent.id found); cbn; tauto.
    + exists r. unfold insert. cbn [rows].
      split; [apply in_or_app; now left|tauto].
  - unfold mark_agent_complete, get_connection, bind, query, ret.
    cbn [view]. rewrite fetchone_select. unfold find_dependency in Hdep.
    rewrite Hdep. cbn. now exists r.
Qed.

Lemma completion_is_recorded (w : world) (p : Z) (a : string) (art : json)
    (dep : Dep.t) :
  find_dependency (store w) a = Some dep ->
  has_complete_record (store (snd (mark_agent_complete p a art w))) p a.
Proof.
  intros Hdep.
  destruct (mark_agent_complete_effect w p a art dep Hdep)
    as (m & w' & -> & _ & _ & Hagents).
  cbn [snd]. unfold has_complete_record. rewrite Hagents.
  destruct (hd_error (open_runs (store w) p a)) as [found|] eqn:Hopen.
  - assert (Hfound : In found (open_runs (store w) p a)).
    { destruct (open_runs (store w) p a); [discriminate|].
      injection Hopen as ->. now left. }
    apply filter_In in Hfound as (Hin & Hcond).
    apply andb_true_iff in Hcond as (Hcond & _).
    apply andb_true_iff in Hcond as (Hp & Ha).
    apply Z.eqb_eq in Hp. apply String.eqb_eq in Ha.
    exists (Agent.complete art (clock w (tick w)) found).
    split; [|cbn; tauto].
    unfold update. cbn [rows]. apply in_map_iff. exists found.
    now rewrite Z.eqb_refl.
  - eexists. unfold insert. cbn [rows].
    split; [apply in_or_app; right; left; reflexivity|].
    cbn. tauto.
Qed.

(** X19.  After [mark_agent_complete] for an agent of the dependency
    graph, the agent has a complete record in the project, and
    [get_next_agents] for the project no longer offers it as ready. *)
Theorem completed_agent_not_offered (w : world) (p : Z) (a : string)
    (art : json) (dep : Dep.t) :
  find_dependency (store w) a = Some dep ->
  has_complete_record (store (snd (mark_agent_complete p a art w))) p a
  /\ exists ready blocked,
       fst (get_next_agents p (snd (mark_agent_complete p a art w)))
       = inr (NextAgents ready blocked)
       /\ ~ In a (map ready_name ready).
Proof.
  intros Hdep.
  pose proof (completion_is_recorded w p a art dep Hdep) as Hdone.
  split; [exact Hdone|].
  rewrite get_next_agents_run. do 2 eexists. split; [reflexivity|].
  rewrite ready_names. intros Hin.
  apply in_map_iff in Hin as (row & Hname & Hrow).
  apply filter_In in Hrow as (_ & Hc).
  apply andb_true_iff in Hc as (_ & Hc).
  apply holds_complete_spec in Hdone. rewrite Hname, Hdone in Hc.
  discriminate.
Qed.

Lemma completed_agent_not_offered_witness :
  let dep := Dep.Make 1 "input-agent" [] 0 in
  find_dependency (store project_world) "input-agent" = Some dep
  /\ has_complete_record
       (store (snd (mark_agent_complete 1 "input-agent" (JObj [])
                      project_world))) 1 "input-agent"
  /\ exists ready blocked,
       fst (get_next_agents 1
              (snd (mark_agent_complete 1 "input-agent" (JObj [])
                      project_world)))
       = inr (NextAgents ready blocked)
       /\ ~ In "input-agent" (map ready_name ready).
Proof.
  intros dep.
  assert (Hdep : find_dependency (store project_world) "input-agent"
                 = Some dep) by (vm_compute; reflexivity).
  split; [exact Hdep|].
  exact (completed_agent_not_offered project_world 1 "input-agent" (JObj [])
           dep Hdep).
Defined.

(** The readiness check, for any agent name. *)
Lemma passes_check_spec (w : world) (p : Z) (a : string) :
  passes_check w p a = true
  <-> exists dep,
        find_dependency (store w) a = Some dep
        /\ (forall pre, In pre (Dep.depends_on dep) ->
                        has_complete_record (store w) p pre)
        /\ Dep.phase_number dep
           <= match find_project (store w) p with
              | Some proj => Project.current_phase proj
              | None => 0
              end.
Proof.
  unfold passes_check, check_info, can_start_agent, get_connection, bind,
    query, ret.
  cbn [view fst]. rewrite fetchone_select.
  fold (find_dependency (store w) a).
  destruct (find_dependency (store w) a) as [dep|];
    [|cbn; split; [discriminate|intros (? & ? & _); discriminate]].
  cbn [view fst]. rewrite fetchone_select. fold (find_project (store w) p).
  cbn [can_start].
  pose proof (missing_empty_iff (store w) p (Dep.depends_on dep)) as Hmiss.
  destruct (Nat.eqb _ 0) eqn:Hlen; cbn [andb].
  - assert (Hall : forall pre, In pre (Dep.depends_on dep) ->
                               has_complete_record (store w) p pre)
      by now apply Hmiss.
    destruct (Z.ltb_spec
                (match find_project (store w) p with
                 | Some proj => Project.current_phase proj
                 | None => 0
                 end) (Dep.phase_number dep)) as [Hlt|Hge].
    + split; [discriminate|]. intros (d & Hd & _ & Hle).
      injection Hd as <-. lia.
    + split; [|reflexivity]. intros _. exists dep. repeat split; trivial.
  - split; [discriminate|]. intros (d & Hd & Hall & _).
    injection Hd as <-. apply Hmiss in Hall. discriminate.
Qed.

(** X20.  Completing an agent never takes readiness away: an agent that
    passes the readiness check of a project still passes it after any
    [mark_agent_complete], for whatever project and agent. *)
Theorem readiness_survives_completion (w : world) (p q : Z) (a b : string)
    (art : json) :
  passes_check w q b = true ->
  passes_check (snd (mark_agent_complete p a art w)) q b = true.
Proof.
  rewrite !passes_check_spec. intros (dep & Hdep & Hall & Hphase).
  assert (Hgraph : dependencies (store (snd (mark_agent_complete p a art w)))
                   = dependencies (store w)
                   /\ (find_project
                         (store (snd (mark_agent_complete p a art w))) q
                       = option_map
                           (fun r => if Project.id r =? p
                                     then Project.set_updated_at
                                            (clock w (S (tick w))) r
                                     else r)
                           (find_project (store w) q)
                       \/ find_project
                            (store (snd (mark_agent_complete p a art w))) q
                          = find_project (store w) q)).
  { destruct (find_dependency (store w) a) as [da|] eqn:Hda.
    - destruct (mark_agent_complete_effect w p a art da Hda)
        as (m & w' & -> & Hdeps & Hprojects & _).
      cbn [snd]. split; [exact Hdeps|]. left.
      unfold find_project. rewrite Hprojects. unfold update. cbn [rows].
      apply find_map_same_key. intros r. now destruct (Project.id r =? p).
    - destruct (unknown_agent_refusal w p a art Hda) as [_ ->].
      cbn [snd]. split; [reflexivity|]. now right. }
  destruct Hgraph as [Hdeps Hproj].
  exists dep. split; [|split].
  - unfold find_dependency in *. now rewrite Hdeps.
  - intros pre Hpre. apply complete_record_survives. now apply Hall.
  - destruct Hproj as [-> | ->]; [|exact Hphase].
    destruct (find_project (store w) q) as [proj|]; cbn; [|exact Hphase].
    now destruct (Project.id proj =? p).
Qed.

Lemma readiness_survives_completion_witness :
  passes_check project_world 1 "input-agent" = true
  /\ passes_check
       (snd (mark_agent_complete 1 "input-agent" (JObj []) project_world))
       1 "input-agent" = true.
Proof.
  assert (Hready : passes_check project_world 1 "input-agent" = true)
    by (vm_compute; reflexivity).
  split; [exact Hready|].
  exact (readiness_survives_completion project_world 1 1 "input-agent"
           "input-agent" (JObj []) Hready).
Defined.

(** ** Artifacts *)

Lemma newest_first_total (a b : Artifact.t) :
  newest_first a b = true \/ newest_first b a = true.
Proof. unfold newest_first. rewrite !Z.leb_le. lia. Qed.

Lemma newest_first_trans (a b c : Artifact.t) :
  newest_first a b = true -> newest_first b c = true ->
  newest_first a c = true.
Proof. unfold newest_first. rewrite !Z.leb_le. lia. Qed.

(** X21.  An artifact that is saved at a time later than every artifact of
    the same project and name is the one [get_artifact] returns for that
    name, older ones notwithstanding: its content and file path are the
    ones given, and its metadata too, except that metadata Python takes
    for false (an empty object, for one) is stored as NULL. *)
Theorem saved_artifact_is_returned (w : world) (p : Z)
    (agent kind name : string) (file_path content : option string)
    (metadata : option json) :
  (forall r, In r (rows (artifacts (store w))) ->
             Artifact.project_id r = p -> Artifact.artifact_name r = name ->
             Artifact.created_at r < clock w (tick w)) ->
  exists a,
    fst (get_artifact p name
           (snd (save_artifact p agent kind name file_path content metadata
                   w)))
    = inr (ArtifactFound a)
    /\ Artifact.id a = next_rowid (artifacts (store w))
    /\ Artifact.agent_name a = agent
    /\ Artifact.artifact_type a = kind
    /\ Artifact.file_path a = file_path
    /\ Artifact.content a = content
    /\ Artifact.metadata a
       = match metadata with
         | Some m => if json_truthy m then Some m else None
         | None => None
         end.
Proof.
  intros Hlater. unfold save_artifact, get_artifact. tx_run.
  unfold fetchone. rewrite firstn_1_head.
  set (new := Artifact.Make (next_rowid (artifacts (store w))) p agent kind
                name file_path content
                (match metadata with
                 | Some m => if json_truthy m then Some m else None
                 | None => None
                 end) (clock w (tick w))).
  set (matching := fun r => (Artifact.project_id r =? p)
                            && String.eqb (Artifact.artifact_name r) name).
  assert (Hsel : select matching
                   (insert (fun i =>
                      Artifact.Make i p agent kind name file_path content
                        (match metadata with
                         | Some m => if json_truthy m then Some m else None
                         | None => None
                         end) (clock w (tick w)))
                      (artifacts (store w)))
                 = select matching (artifacts (store w)) ++ [new]).
  { unfold select, insert. cbn [rows]. rewrite filter_app. f_equal.
    unfold matching.
    cbn [filter Artifact.project_id Artifact.artifact_name].
    now rewrite Z.eqb_refl, String.eqb_refl. }
  rewrite Hsel.
  destruct (hd_error _) as [a|] eqn:Hhd.
  - apply (order_by_head newest_first newest_first_total newest_first_trans)
      in Hhd as [Hin Hleast].
    assert (Hnew : newest_first a new = true)
      by (apply Hleast, in_or_app; right; now left).
    apply in_app_or in Hin as [Hold|[<-|[]]].
    + apply filter_In in Hold as (Hrow & Hm).
      apply andb_true_iff in Hm as (Hp & Hn).
      apply Z.eqb_eq in Hp. apply String.eqb_eq in Hn.
      specialize (Hlater a Hrow Hp Hn).
      unfold newest_first in Hnew. apply Z.leb_le in Hnew. cbn in Hnew. lia.
    + exists new. cbn. repeat split.
  - destruct (order_by _ _) as [|x l] eqn:Hl; [|discriminate].
    apply order_by_empty in Hl. now apply app_eq_nil in Hl as [_ Hl].
Qed.

Lemma saved_artifact_is_returned_witness :
  (forall r, In r (rows (artifacts (store project_world))) ->
             Artifact.project_id r = 1 ->
             Artifact.artifact_name r = "spec.md" ->
             Artifact.created_at r
             < clock project_world (tick project_world))
  /\ exists a,
       fst (get_artifact 1 "spec.md"
              (snd (save_artifact 1 "requirements-analyst" "doc" "spec.md"
                      None (Some "v1") (Some (JObj [])) project_world)))
       = inr (ArtifactFound a)
       /\ Artifact.id a = next_rowid (artifacts (store project_world))
       /\ Artifact.agent_name a = "requirements-analyst"
       /\ Artifact.artifact_type a = "doc"
       /\ Artifact.file_path a = None
       /\ Artifact.content a = Some "v1"
       /\ Artifact.metadata a
          = match Some (JObj []) with
            | Some m => if json_truthy m then Some m else None
            | None => None
            end.
Proof.
  assert (Hlater : forall r,
             In r (rows (artifacts (store project_world))) ->
             Artifact.project_id r = 1 ->
             Artifact.artifact_name r = "spec.md" ->
             Artifact.created_at r
             < clock project_world (tick project_world))
    by (intros r Hr; destruct Hr).
  split; [exact Hlater|].
  exact (saved_artifact_is_returned project_world 1 "requirements-analyst"
           "doc" "spec.md" None (Some "v1") (Some (JObj [])) Hlater).
Defined.



(** X23.  [list_artifacts] returns each artifact of the project once,
    newest first, with their number; a filter type restricts the list to
    the artifacts of that type, except that an empty filter restricts
    nothing.  The state is left unchanged. *)
Theorem list_artifacts_lists (w : world) (p : Z)
    (filter_type : option string) :
  exists found,
    list_artifacts p filter_type w
    = (inr (ArtifactList found (Z.of_nat (List.length found))), w)
    /\ Permutation
         (filter (listed_artifact p filter_type)
                 (rows (artifacts (store w))))
         found
    /\ StronglySorted
         (fun a b => Artifact.created_at b <= Artifact.created_at a) found.
Proof.
  assert (Hsorted : forall l,
             StronglySorted
               (fun a b => Artifact.created_at b <= Artifact.created_at a)
               (order_by newest_first l)).
  { intros l.
    pose proof (order_by_sorted newest_first newest_first_total
                  newest_first_trans l) as Hs.
    induction Hs as [|x s Hs IH Hall]; constructor; trivial.
    rewrite Forall_forall in *. intros y Hy.
    apply Z.leb_le. exact (Hall y Hy). }
  assert (Hext : forall f g l,
             (forall r : Artifact.t, f r = g r) ->
             filter f l = filter g l)
    by (intros f g l Hfg; now apply filter_ext).
  unfold list_artifacts. tx_run.
  destruct filter_type as [t|]; cbn.
  - destruct (String.eqb_spec t "") as [->|Hne]; cbn; rewrite world_eta;
      eexists; (split; [reflexivity|]);
      (split; [|apply Hsorted]); unfold select.
    + erewrite Hext; [apply order_by_perm|].
      intros r. unfold listed_artifact. cbn. now rewrite andb_true_r.
    + erewrite Hext; [apply order_by_perm|].
      intros r. unfold listed_artifact.
      apply String.eqb_neq in Hne. now rewrite Hne.
  - rewrite world_eta. eexists. split; [reflexivity|].
    split; [|apply Hsorted]. unfold select.
    erewrite Hext; [apply order_by_perm|].
    intros r. unfold listed_artifact. now rewrite andb_true_r.
Qed.

(** ** Listings *)

Lemma sorted_weaken {R : Type} (P Q : R -> R -> Prop) (l : list R) :
  (forall a b, P a b -> Q a b) -> StronglySorted P l -> StronglySorted Q l.
Proof.
  intros HPQ. induction 1 as [|x s Hs IH Hall]; constructor; trivial.
  rewrite Forall_forall in *. intros y Hy. now apply HPQ, Hall.
Qed.

Lemma latest_update_first_total (a b : Project.t) :
  latest_update_first a b = true \/ latest_update_first b a = true.
Proof. unfold latest_update_first. rewrite !Z.leb_le. lia. Qed.

Lemma latest_update_first_trans (a b c : Project.t) :
  latest_update_first a b = true -> latest_update_first b c = true ->
  latest_update_first a c = true.
Proof. unfold latest_update_first. rewrite !Z.leb_le. lia. Qed.

(** X24.  [list_projects] lists every project once, the most recently
    updated first, and reports how many there are; it changes nothing. *)
Theorem list_projects_lists (w : world) :
  exists sorted,
    list_projects w
    = (inr (map listing_of sorted,
            Z.of_nat (List.length (rows (projects (store w))))), w)
    /\ Permutation (rows (projects (store w))) sorted
    /\ StronglySorted
         (fun a b => Project.updated_at b <= Project.updated_at a) sorted.
Proof.
  unfold list_projects. tx_run. rewrite world_eta.
  exists (order_by latest_update_first (rows (projects (store w)))).
  pose proof (order_by_perm latest_update_first (rows (projects (store w))))
    as Hperm.
  split; [|split; [exact Hperm|]].
  - now rewrite length_map, (Permutation_length Hperm).
  - apply (sorted_weaken (fun a b => latest_update_first a b = true)).
    + intros a b. unfold latest_update_first. now rewrite Z.leb_le.
    + apply order_by_sorted;
        [apply latest_update_first_total|apply latest_update_first_trans].
Qed.

Lemma by_priority_text_desc_spec (a b : Feature.t) :
  by_priority_text_desc a b = true
  <-> listing_rank (Feature.priority a) < listing_rank (Feature.priority b)
      \/ (listing_rank (Feature.priority a)
            = listing_rank (Feature.priority b)
          /\ Feature.id a <= Feature.id b).
Proof.
  unfold by_priority_text_desc.
  destruct (Feature.priority a), (Feature.priority b); cbn;
    rewrite ?Z.leb_le; intuition (try discriminate; try lia).
Qed.

Lemma latest_event_first_total (a b : Audit.t) :
  latest_event_first a b = true \/ latest_event_first b a = true.
Proof. unfold latest_event_first. rewrite !Z.leb_le. lia. Qed.



(** X26.  For an existing project, [get_project_state] returns the project
    row, as pending approvals exactly the project's gates that are still
    pending, as recent activity at most twenty audit entries, all of the
    project, and as features all of the project's features ordered by the
    text of their priority, largest first: MEDIUM before LOW before HIGH,
    and by id within a priority.  It changes nothing. *)
Theorem get_project_state_contents (w : world) (p : Z) (proj : Project.t) :
  find_project (store w) p = Some proj ->
  exists st,
    get_project_state p w = (inr (StateFound st), w)
    /\ state_project st = proj
    /\ (forall g, In g (state_pending_approvals st)
                  <-> In g (rows (approval_gates (store w)))
                      /\ Gate.project_id g = p
                      /\ Gate.status g = GatePending)
    /\ (List.length (state_recent_activity st) <= 20)%nat
    /\ (forall e, In e (state_recent_activity st) ->
                  In e (rows (audit_log (store w)))
                  /\ Audit.project_id e = p)
    /\ Permutation
         (filter (fun f => Feature.project_id f =? p)
                 (rows (features (store w))))
         (state_features st)
    /\ StronglySorted
         (fun a b =>
            listing_rank (Feature.priority a)
              < listing_rank (Feature.priority b)
            \/ (listing_rank (Feature.priority a)
                  = listing_rank (Feature.priority b)
                /\ Feature.id a <= Feature.id b))
         (state_features st).
Proof.
  intros Hproj. unfold find_project in Hproj.
  unfold get_project_state. tx_run. rewrite fetchone_select, Hproj.
  cbn. rewrite world_eta. eexists. split; [reflexivity|]. cbn.
  split; [reflexivity|]. split; [|split; [|split; [|split]]].
  - intros g. rewrite order_by_in. unfold select.
    rewrite filter_In, andb_true_iff, Z.eqb_eq, gate_status_eqb_eq. tauto.
  - rewrite length_firstn. apply Nat.le_min_l.
  - intros e He. apply in_firstn in He. apply order_by_in in He.
    unfold select in He. apply filter_In in He as (Hin & Hp).
    split; [exact Hin|now apply Z.eqb_eq].
  - apply order_by_perm.
  - assert (Htotal : forall a b, by_priority_text_desc a b = true
                                 \/ by_priority_text_desc b a = true)
      by (intros a b; rewrite !by_priority_text_desc_spec; lia).
    assert (Htrans : forall a b c,
               by_priority_text_desc a b = true ->
               by_priority_text_desc b c = true ->
               by_priority_text_desc a c = true)
      by (intros a b c; rewrite !by_priority_text_desc_spec; lia).
    apply (sorted_weaken (fun a b => by_priority_text_desc a b = true)).
    + intros a b. now rewrite by_priority_text_desc_spec.
    + now apply order_by_sorted.
Qed.

Lemma get_project_state_contents_witness :
  let proj := Project.Make 1 "P" "demo" "default" 0 Active
                           1700000000 1700000001 in
  find_project (store (gate_world "Gate 1")) 1 = Some proj
  /\ exists st,
       get_project_state 1 (gate_world "Gate 1")
       = (inr (StateFound st), gate_world "Gate 1")
       /\ state_project st = proj
       /\ (forall g, In g (state_pending_approvals st)
                     <-> In g (rows (approval_gates
                                       (store (gate_world "Gate 1"))))
                         /\ Gate.project_id g = 1
                         /\ Gate.status g = GatePending)
       /\ (List.length (state_recent_activity st) <= 20)%nat
       /\ (forall e, In e (state_recent_activity st) ->
                     In e (rows (audit_log (store (gate_world "Gate 1"))))
                     /\ Audit.project_id e = 1)
       /\ Permutation
            (filter (fun f => Feature.project_id f =? 1)
                    (rows (features (store (gate_world "Gate 1")))))
            (state_features st)
       /\ StronglySorted
            (fun a b =>
               listing_rank (Feature.priority a)
                 < listing_rank (Feature.priority b)
               \/ (listing_rank (Feature.priority a)
                     = listing_rank (Feature.priority b)
                   /\ Feature.id a <= Feature.id b))
            (state_features st).
Proof.
  intros proj.
  assert (Hproj : find_project (store (gate_world "Gate 1")) 1 = Some proj)
    by (vm_compute; reflexivity).
  split; [exact Hproj|].
  exact (get_project_state_contents (gate_world "Gate 1") 1 proj Hproj).
Defined.

(** ** The schema *)

Lemma seeding_effect (seed : list (string * list string * Z)) (d : db) :
  let d' :=
    fold_left
      (fun d' '(agent_name, depends_on, phase_number) =>
         on_dependencies
           (insert (fun i => Dep.Make i agent_name depends_on phase_number))
           d')
      seed d in
  map Dep.agent_name (rows (dependencies d'))
  = map Dep.agent_name (rows (dependencies d))
    ++ map (fun '(a, _, _) => a) seed
  /\ projects d' = projects d
  /\ phases d' = phases d
  /\ agents d' = agents d
  /\ features d' = features d
  /\ approval_gates d' = approval_gates d
  /\ artifacts d' = artifacts d
  /\ audit_log d' = audit_log d.
Proof.
  revert d. induction seed as [|[[a deps] ph] seed IH]; intros d; cbn zeta.
  - cbn. rewrite app_nil_r. repeat split.
  - cbn [fold_left].
    destruct (IH (on_dependencies
                    (insert (fun i => Dep.Make i a deps ph)) d))
      as (Hnames & Hrest).
    cbn zeta in Hnames, Hrest. rewrite Hnames.
    split; [|exact Hrest].
    cbn. unfold insert. cbn [rows]. rewrite map_app, <- app_assoc.
    reflexivity.
Qed.

Lemma seeded_graph_not_empty (d : db) :
  (Z.of_nat (List.length
               (rows (dependencies (_initialize_dependency_graph d)))) =? 0)
  = false.
Proof.
  destruct (seeding_effect dependency_seed d) as (Hnames & _).
  cbn zeta in Hnames. fold (_initialize_dependency_graph d) in Hnames.
  apply Z.eqb_neq. intros Hlen.
  assert (Hlen' : List.length
                    (map Dep.agent_name
                       (rows (dependencies
                                (_initialize_dependency_graph d)))) = 0%nat)
    by (rewrite length_map; lia).
  rewrite Hnames, length_app in Hlen'. cbn in Hlen'. lia.
Qed.

(** X27.  [init_schema] seeds the dependency graph only if it is empty and
    touches no other table; running it again changes nothing. *)
Theorem init_schema_idempotent (d : db) :
  init_schema (init_schema d) = init_schema d
  /\ (rows (dependencies d) <> [] -> init_schema d = d)
  /\ (rows (dependencies d) = [] ->
      map Dep.agent_name (rows (dependencies (init_schema d)))
      = map (fun '(a, _, _) => a) dependency_seed)
  /\ projects (init_schema d) = projects d
  /\ phases (init_schema d) = phases d
  /\ agents (init_schema d) = agents d
  /\ features (init_schema d) = features d
  /\ approval_gates (init_schema d) = approval_gates d
  /\ artifacts (init_schema d) = artifacts d
  /\ audit_log (init_schema d) = audit_log d.
Proof.
  destruct (seeding_effect dependency_seed d) as (Hnames & Hrest).
  cbn zeta in Hnames, Hrest.
  fold (_initialize_dependency_graph d) in Hnames, Hrest.
  destruct (Z.of_nat (List.length (rows (dependencies d))) =? 0) eqn:Hempty.
  - assert (Hinit : init_schema d = _initialize_dependency_graph d)
      by (unfold init_schema; now rewrite Hempty).
    split.
    { rewrite Hinit at 1. unfold init_schema at 1.
      now rewrite seeded_graph_not_empty. }
    rewrite Hinit. split.
    { intros Hne. destruct (rows (dependencies d)); [congruence|].
      discriminate. }
    split; [|exact Hrest].
    intros Hnil. rewrite Hnames, Hnil. reflexivity.
  - assert (Hinit : init_schema d = d)
      by (unfold init_schema; now rewrite Hempty).
    rewrite !Hinit. split; [reflexivity|].
    split; [reflexivity|]. split; [|repeat split].
    intros Hnil. rewrite Hnil in Hempty. discriminate.
Qed.

(** ** Primary keys *)

#[export] Instance keys_kept_preorder : PreOrder keys_kept.
Proof.
  split; [intros d H; exact H|].
  intros a b c Hab Hbc H. apply Hbc, Hab, H.
Qed.

Lemma update_keeps_keys {R : Type} `{Row R} (cond : R -> bool)
    (assign : R -> R) (t : table R) :
  (forall r, rowid (assign r) = rowid r) ->
  NoDup (map rowid (rows t)) -> NoDup (map rowid (rows (update cond assign t))).
Proof.
  intros Hkey Hnd. unfold update. cbn [rows].
  now rewrite map_key_update.
Qed.

Ltac keys_table :=
  first
    [ assumption
    | first [ apply (@insert_keeps_keys _ project_row)
            | apply (@insert_keeps_keys _ phase_row)
            | apply (@insert_keeps_keys _ agent_row)
            | apply (@insert_keeps_keys _ feature_row)
            | apply (@insert_keeps_keys _ gate_row)
            | apply (@insert_keeps_keys _ artifact_row)
            | apply (@insert_keeps_keys _ audit_row) ];
      [intros; reflexivity|assumption]
    | first [ apply (@update_keeps_keys _ project_row)
            | apply (@update_keeps_keys _ phase_row)
            | apply (@update_keeps_keys _ agent_row)
            | apply (@update_keeps_keys _ feature_row)
            | apply (@update_keeps_keys _ gate_row) ];
      [intros; reflexivity|assumption] ].

Ltac keys_stmt :=
  intros (Hp & Hph & Ha & Hf & Hg & Hart & Hl & Hd); unfold all_keyed; cbn;
  repeat split; keys_table.

Lemma serve_keeps_keys (r : request) (w : world) :
  all_keyed (store w) -> all_keyed (store (serve r w)).
Proof.
  change (keys_kept (store w) (store (serve r w))).
  by_tool r; keep keys_kept ltac:(keys_stmt).
Qed.

Lemma new_database_keyed : all_keyed (init_schema empty_db).
Proof.
  unfold all_keyed.
  repeat (split; [constructor|]).
  vm_compute.
  repeat (constructor;
          [intros H; repeat (destruct H as [H|H]; [discriminate H|]);
           exact H|]).
  constructor.
Qed.

(** X28.  In every state the requests can reach from a new database, no
    two rows of a table have the same id. *)
Theorem primary_keys_unique (rs : list request) (now : nat -> timestamp)
    (n : nat) :
  all_keyed (store (serve_all rs (World (init_schema empty_db) now n))).
Proof.
  unfold serve_all. pose proof new_database_keyed as Hstart.
  change (all_keyed (store (World (init_schema empty_db) now n))) in Hstart.
  revert Hstart. generalize (World (init_schema empty_db) now n).
  induction rs as [|r rs IH]; intros w Hkeys; cbn [fold_left].
  - exact Hkeys.
  - apply IH. now apply serve_keeps_keys.
Qed.

(** ** Read-only tools *)

(** X29.  The tools that report on the state ([can_start_agent],
    [get_next_agents], [get_next_feature], [get_project_state],
    [list_projects], [get_artifact] and [list_artifacts]) write nothing:
    the database is the same after the request, whatever they answer. *)
Theorem reports_change_nothing (r : request) (w : world) :
  is_report r = true -> store (serve r w) = store w.
Proof.
  intros Hr. symmetry. revert Hr.
  by_tool r; intros Hr; try discriminate Hr;
    keep (@eq db) ltac:(fail).
Qed.

Lemma reports_change_nothing_witness :
  let r := workflow_tool (appforge_get_next_agents 1) in
  is_report r = true /\ store (serve r project_world) = store project_world.
Proof.
  intros r. split; [reflexivity|].
  exact (reports_change_nothing r project_world eq_refl).
Defined.
